(** * The injected wallet provider: state machine, dispatcher, indirection layer

    A shallow embedding of [BaseProvider] (the EIP-1193 provider state
    machine and its request entry points) and of [initializeProvider] /
    [setGlobalProvider] (the delete-proof facade and the retargetable proxy
    that is installed as [window.ethereum]).

    Conventions.
    - JavaScript values that reach the code at run time are [JsValue]s; the
      handlers inspect them exactly as the source does ([typeof],
      [Array.isArray], truthiness, [for ... of]).
    - A method of the class is a computation [M A]: it takes the instance,
      returns the mutated instance and either a result or the exception that
      was thrown.  Mutations made before a [throw] stay, as in JavaScript.
    - [emit] and the logger append to two traces kept in the instance. *)

From stdpp Require Import base option list strings gmap.
From Stdlib Require Import ZArith.

Open Scope string_scope.
Open Scope list_scope.

(** ** JavaScript values *)

(** Numbers are integral: the code only ever tests a number for falsiness
    and for its [typeof]. *)
#[warnings="-register-all"] Inductive JsValue : Type :=
| JUndefined
| JNull
| JBoolean (b : bool)
| JNumber (n : Z)
| JString (s : string)
| JArray (elems : list JsValue)
| JObject (fields : list (string * JsValue))
| JFunction (name : string).

Inductive JsType := TyUndefined | TyObject | TyBoolean | TyNumber | TyString | TyFunction.

(** [typeof v] *)
Definition typeof (v : JsValue) : JsType :=
  match v with
  | JUndefined => TyUndefined
  | JNull => TyObject
  | JBoolean _ => TyBoolean
  | JNumber _ => TyNumber
  | JString _ => TyString
  | JArray _ => TyObject
  | JObject _ => TyObject
  | JFunction _ => TyFunction
  end.

Definition JsType_eqb (a b : JsType) : bool :=
  match a, b with
  | TyUndefined, TyUndefined | TyObject, TyObject | TyBoolean, TyBoolean
  | TyNumber, TyNumber | TyString, TyString | TyFunction, TyFunction => true
  | _, _ => false
  end.

(** [Boolean(v)], the test behind [!v] and [v || w] *)
Definition truthy (v : JsValue) : bool :=
  match v with
  | JUndefined | JNull => false
  | JBoolean b => b
  | JNumber n => negb (n =? 0)%Z
  | JString s => negb (String.eqb s "")
  | JArray _ | JObject _ | JFunction _ => true
  end.

(** [Array.isArray(v)] *)
Definition isArray (v : JsValue) : bool :=
  match v with JArray _ => true | _ => false end.

Definition isUndefined (v : JsValue) : bool :=
  match v with JUndefined => true | _ => false end.

Definition isNull (v : JsValue) : bool :=
  match v with JNull => true | _ => false end.

Fixpoint assoc (k : string) (fs : list (string * JsValue)) : option JsValue :=
  match fs with
  | [] => None
  | (k', v) :: rest => if String.eqb k k' then Some v else assoc k rest
  end.

(** [v.k] for the property names the code reads ([method], [params],
    [accounts], [chainId], [isUnlocked], [isMetaMask]): a missing property
    reads as [undefined], and no array, string, function or other primitive
    has one of these. *)
Definition getProperty (v : JsValue) (k : string) : JsValue :=
  match v with
  | JObject fs => default JUndefined (assoc k fs)
  | _ => JUndefined
  end.

(** The values [for (const x of v)] visits, or [None] when [v] is not
    iterable and the loop header throws a [TypeError].  A string iterates
    over its characters. *)
Definition iterate (v : JsValue) : option (list JsValue) :=
  match v with
  | JArray l => Some l
  | JString s => Some (map (λ c, JString (String c "")) (String.list_ascii_of_string s))
  | _ => None
  end.

Definition isString (v : JsValue) : bool :=
  match v with JString _ => true | _ => false end.

(** The cast [_accounts as string[]]: by then every element is a string. *)
Definition asStrings (l : list JsValue) : list string :=
  omap (λ v, match v with JString s => Some s | _ => None end) l.

Definition ofStrings (l : list string) : JsValue := JArray (map JString l).

(** ** Messages, errors, events *)

(** The texts of [./messages] (not among the sources) are kept symbolic;
    literal strings of the source are [Literal]. *)
Inductive Message :=
| Msg_info_connected (cid : JsValue)
| Msg_errors_disconnected
| Msg_errors_permanentlyDisconnected
| Msg_errors_invalidNetworkParams
| Msg_errors_invalidRequestArgs
| Msg_errors_invalidRequestMethod
| Msg_errors_invalidRequestParams
| Literal (s : string).

Inductive JsError :=
| Error (msg : string)
| TypeError (msg : string)
| EthereumRpcError (code : Z) (msg : Message)
| InvalidRequest (msg : Message) (data : JsValue).

Inductive Event :=
| Ev_connect (cid : JsValue)
| Ev_disconnect (error : JsError)
| Ev_chainChanged (cid : string)
| Ev_accountsChanged (accs : list string)
| Ev_initialized.

Inductive LogEntry :=
| Log_debug (m : Message)
| Log_debug_error (e : JsError)
| Log_error (m : Message) (arg : option JsValue)
| Log_error_error (e : JsError).

(** ** Objects with an identity

    What the global slot [window.ethereum], the delegate of the indirection
    layer and [_originalMetaMask] can hold. *)
Inductive Reference :=
| Plain (v : JsValue)                            (* a value built in place, such as [{}] or [undefined] *)
| TheProvider                                    (* [providerInstance] *)
| External (name : string) (isMetaMask : bool)   (* an object another script put in the page *)
| TheProxy.                                      (* the [proxy] made by [mutableProxyFactory] *)

(** [_setWaymontTarget] holds a function; the only one ever stored is the
    [setTarget] closure of the indirection layer. *)
Inductive TargetSetter := Layer_setTarget.

(** ** The instance *)

Record BaseProviderState := {
  accounts : option (list string);
  isConnected : bool;
  isUnlocked : bool;
  initialized : bool;
  isPermanentlyDisconnected : bool;
}.

Definition _defaultState : BaseProviderState :=
  {| accounts := None; isConnected := false; isUnlocked := false;
     initialized := false; isPermanentlyDisconnected := false |}.

Record BaseProvider := {
  _state : BaseProviderState;
  chainId : option string;
  selectedAddress : option string;
  _originalMetaMask : option Reference;
  _setWaymontTarget : option TargetSetter;
  emitted : list Event;       (* everything passed to [this.emit], oldest first *)
  _log : list LogEntry;       (* everything passed to [this._log], oldest first *)
}.

(** The state the constructor leaves. *)
Definition new_BaseProvider : BaseProvider :=
  {| _state := _defaultState; chainId := None; selectedAddress := None;
     _originalMetaMask := None; _setWaymontTarget := None;
     emitted := []; _log := [] |}.

Definition set_state (f : BaseProviderState → BaseProviderState) (p : BaseProvider) : BaseProvider :=
  {| _state := f (_state p); chainId := chainId p; selectedAddress := selectedAddress p;
     _originalMetaMask := _originalMetaMask p; _setWaymontTarget := _setWaymontTarget p;
     emitted := emitted p; _log := _log p |}.

Definition set_accounts (a : option (list string)) (s : BaseProviderState) :=
  {| accounts := a; isConnected := isConnected s; isUnlocked := isUnlocked s;
     initialized := initialized s; isPermanentlyDisconnected := isPermanentlyDisconnected s |}.

Definition set_isConnected (b : bool) (s : BaseProviderState) :=
  {| accounts := accounts s; isConnected := b; isUnlocked := isUnlocked s;
     initialized := initialized s; isPermanentlyDisconnected := isPermanentlyDisconnected s |}.

Definition set_isUnlocked (b : bool) (s : BaseProviderState) :=
  {| accounts := accounts s; isConnected := isConnected s; isUnlocked := b;
     initialized := initialized s; isPermanentlyDisconnected := isPermanentlyDisconnected s |}.

Definition set_initialized (b : bool) (s : BaseProviderState) :=
  {| accounts := accounts s; isConnected := isConnected s; isUnlocked := isUnlocked s;
     initialized := b; isPermanentlyDisconnected := isPermanentlyDisconnected s |}.

Definition set_isPermanentlyDisconnected (b : bool) (s : BaseProviderState) :=
  {| accounts := accounts s; isConnected := isConnected s; isUnlocked := isUnlocked s;
     initialized := initialized s; isPermanentlyDisconnected := b |}.

Definition set_chainId (c : option string) (p : BaseProvider) : BaseProvider :=
  {| _state := _state p; chainId := c; selectedAddress := selectedAddress p;
     _originalMetaMask := _originalMetaMask p; _setWaymontTarget := _setWaymontTarget p;
     emitted := emitted p; _log := _log p |}.

Definition set_selectedAddress (a : option string) (p : BaseProvider) : BaseProvider :=
  {| _state := _state p; chainId := chainId p; selectedAddress := a;
     _originalMetaMask := _originalMetaMask p; _setWaymontTarget := _setWaymontTarget p;
     emitted := emitted p; _log := _log p |}.

Definition push_event (e : Event) (p : BaseProvider) : BaseProvider :=
  {| _state := _state p; chainId := chainId p; selectedAddress := selectedAddress p;
     _originalMetaMask := _originalMetaMask p; _setWaymontTarget := _setWaymontTarget p;
     emitted := emitted p ++ [e]; _log := _log p |}.

Definition push_log (l : LogEntry) (p : BaseProvider) : BaseProvider :=
  {| _state := _state p; chainId := chainId p; selectedAddress := selectedAddress p;
     _originalMetaMask := _originalMetaMask p; _setWaymontTarget := _setWaymontTarget p;
     emitted := emitted p; _log := _log p ++ [l] |}.

(** [setOriginalMetaMask(originalMetaMask)] *)
Definition setOriginalMetaMask (originalMetaMask : Reference) (p : BaseProvider) : BaseProvider :=
  {| _state := _state p; chainId := chainId p; selectedAddress := selectedAddress p;
     _originalMetaMask := Some originalMetaMask; _setWaymontTarget := _setWaymontTarget p;
     emitted := emitted p; _log := _log p |}.

(** [setWaymontTargetSetter(targetSetter)] *)
Definition setWaymontTargetSetter (targetSetter : TargetSetter) (p : BaseProvider) : BaseProvider :=
  {| _state := _state p; chainId := chainId p; selectedAddress := selectedAddress p;
     _originalMetaMask := _originalMetaMask p; _setWaymontTarget := Some targetSetter;
     emitted := emitted p; _log := _log p |}.

(** ** Computations on the instance *)

Inductive Outcome (A : Type) :=
| Returned (a : A)
| Thrown (e : JsError).
Arguments Returned {A} a.
Arguments Thrown {A} e.

Definition M (A : Type) : Type := BaseProvider → Outcome A * BaseProvider.

Definition ret {A} (a : A) : M A := λ p, (Returned a, p).

Definition bind {A B} (c : M A) (k : A → M B) : M B :=
  λ p, match c p with
       | (Returned a, p') => k a p'
       | (Thrown e, p') => (Thrown e, p')
       end.

Definition throw {A} (e : JsError) : M A := λ p, (Thrown e, p).

Definition read {A} (f : BaseProvider → A) : M A := λ p, (Returned (f p), p).

Definition update (f : BaseProvider → BaseProvider) : M unit := λ p, (Returned tt, f p).

Definition when (b : bool) (c : M unit) : M unit := if b then c else ret tt.

Notation "x <- c ;; k" := (bind c (λ x, k))
  (at level 100, c at next level, right associativity).
Notation "c ;; k" := (bind c (λ _, k))
  (at level 100, right associativity).

Definition emit (e : Event) : M unit := update (push_event e).
Definition log (l : LogEntry) : M unit := update (push_log l).

(** The instance a computation leaves behind, whether it returned or threw. *)
Definition after {A} (c : M A) (p : BaseProvider) : BaseProvider := snd (c p).

Definition returns {A} (c : M A) (p : BaseProvider) : bool :=
  match fst (c p) with Returned _ => true | Thrown _ => false end.

Definition throws {A} (c : M A) (p : BaseProvider) : bool := negb (returns c p).

(** The events a computation emits: what it appended to the trace. *)
Definition emits {A} (c : M A) (p : BaseProvider) : list Event :=
  drop (length (emitted p)) (emitted (after c p)).

(** ** Handlers of the state machine *)

(** [_handleConnect(chainId)]; the chain id is passed on as it came. *)
Definition _handleConnect (cid : JsValue) : M unit :=
  connected <- read (λ p, isConnected (_state p)) ;;
  when (negb connected)
    (update (set_state (set_isConnected true)) ;;
     emit (Ev_connect cid) ;;
     log (Log_debug (Msg_info_connected cid))).

(** [errorMessage || fallback]: an absent or empty message is falsy. *)
Definition messageOr (errorMessage : option string) (fallback : Message) : Message :=
  match errorMessage with
  | Some s => if String.eqb s "" then fallback else Literal s
  | None => fallback
  end.

(** [_handleDisconnect(isRecoverable, errorMessage)] *)
Definition _handleDisconnect (isRecoverable : bool) (errorMessage : option string) : M unit :=
  st <- read _state ;;
  when (isConnected st || (negb (isPermanentlyDisconnected st) && negb isRecoverable))
    (update (set_state (set_isConnected false)) ;;
     error <- (if isRecoverable then
                 let error := EthereumRpcError 1013 (messageOr errorMessage Msg_errors_disconnected) in
                 log (Log_debug_error error) ;;
                 ret error
               else
                 let error := EthereumRpcError 1011 (messageOr errorMessage Msg_errors_permanentlyDisconnected) in
                 log (Log_error_error error) ;;
                 update (set_chainId None) ;;
                 update (set_state (set_accounts None)) ;;
                 update (set_selectedAddress None) ;;
                 update (set_state (set_isUnlocked false)) ;;
                 update (set_state (set_isPermanentlyDisconnected true)) ;;
                 ret error) ;;
     emit (Ev_disconnect error)).

(** [dequal(this._state.accounts, _accounts)]: [null] equals no array; two
    arrays are equal when they have the same strings in the same order. *)
Definition dequal (stored : option (list string)) (incoming : list string) : bool :=
  match stored with
  | None => false
  | Some l => bool_decide (l = incoming)
  end.

(** [this.selectedAddress !== _accounts[0]], where [_accounts[0]] is
    [undefined] for the empty array. *)
Definition differsFromFirst (sel : option string) (accs : list string) : bool :=
  match head accs with
  | None => true
  | Some a => negb (bool_decide (sel = Some a))
  end.

(** [(_accounts[0] as string) || null] *)
Definition firstOrNull (accs : list string) : option string :=
  match head accs with
  | None => None
  | Some a => if String.eqb a "" then None else Some a
  end.

(** [_handleAccountsChanged(accounts, isEthAccounts = false)] *)
Definition _handleAccountsChanged (accs : JsValue) (isEthAccounts : bool) : M unit :=
  _accounts <- (match accs with
                | JArray l => ret l
                | _ => log (Log_error (Literal "MetaMask: Received invalid accounts parameter. Please report this bug.") (Some accs)) ;;
                       ret []
                end) ;;
  _accounts <- (match iterate accs with
                | None => throw (TypeError "accounts is not iterable")
                | Some visited =>
                    if forallb isString visited then ret _accounts
                    else log (Log_error (Literal "MetaMask: Received non-string account. Please report this bug.") (Some accs)) ;;
                         ret []
                end) ;;
  let _accounts := asStrings _accounts in
  stored <- read (λ p, accounts (_state p)) ;;
  when (negb (dequal stored _accounts))
    (when (isEthAccounts && bool_decide (stored ≠ None))
       (log (Log_error (Literal "MetaMask: 'eth_accounts' unexpectedly updated accounts. Please report this bug.") (Some (ofStrings _accounts)))) ;;
     update (set_state (set_accounts (Some _accounts))) ;;
     sel <- read selectedAddress ;;
     when (differsFromFirst sel _accounts)
       (update (set_selectedAddress (firstOrNull _accounts))) ;;
     init <- read (λ p, initialized (_state p)) ;;
     when init (emit (Ev_accountsChanged _accounts))).

(** [_handleUnlockStateChanged({ accounts, isUnlocked })] *)
Definition _handleUnlockStateChanged (accs : JsValue) (unlocked : JsValue) : M unit :=
  match unlocked with
  | JBoolean b =>
      current <- read (λ p, isUnlocked (_state p)) ;;
      when (negb (Bool.eqb b current))
        (update (set_state (set_isUnlocked b)) ;;
         _handleAccountsChanged (if truthy accs then accs else JArray []) false)
  | _ =>
      log (Log_error (Literal "MetaMask: Received invalid isUnlocked parameter. Please report this bug.") None)
  end.

Section ChainId.

(** [isValidChainId] comes from [./utils], which is not among the sources.
    Its use as a type guard ([chainId] is passed on as a [string]) fixes
    that only strings are valid; which strings are is left open. *)
Variable validHex : string → bool.

Definition isValidChainId (v : JsValue) : option string :=
  match v with
  | JString s => if validHex s then Some s else None
  | _ => None
  end.

(** [_handleChainChanged({ chainId })] *)
Definition _handleChainChanged (cid : JsValue) : M unit :=
  match isValidChainId cid with
  | None => log (Log_error Msg_errors_invalidNetworkParams (Some (JObject [("chainId", cid)])))
  | Some c =>
      _handleConnect (JString c) ;;
      current <- read chainId ;;
      when (negb (bool_decide (Some c = current)))
        (update (set_chainId (Some c)) ;;
         init <- read (λ p, initialized (_state p)) ;;
         when init (emit (Ev_chainChanged c)))
  end.

(** [_initializeState(initialState?)].  The snapshot is the value that
    arrives at run time, [undefined] when the argument is left out; its
    declared type is not checked.  Destructuring a truthy value that is not
    an object, or an object without the field, yields [undefined], which is
    what [getProperty] gives.  [networkVersion] is read and passed on, but
    [_handleChainChanged] does not use it. *)
Definition _initializeState (initialState : JsValue) : M unit :=
  init <- read (λ p, initialized (_state p)) ;;
  (if init then throw (Error "Provider already initialized.") else ret tt) ;;
  (if truthy initialState then
     let accounts := getProperty initialState "accounts" in
     let chainId := getProperty initialState "chainId" in
     let isUnlocked := getProperty initialState "isUnlocked" in
     _handleConnect chainId ;;
     _handleChainChanged chainId ;;
     _handleUnlockStateChanged accounts isUnlocked ;;
     _handleAccountsChanged accounts false
   else ret tt) ;;
  update (set_state (set_initialized true)) ;;
  emit Ev_initialized.

End ChainId.

(** Modelled from the spec: the chain-id validation of [./utils] is missing;
    the spec calls a chain id a hex-prefixed string.  Used only to run the
    handlers on concrete inputs. *)
Definition hexPrefixed (s : string) : bool := String.prefix "0x" s.

(** ** The public [request] method *)

(** What [request] hands to [_rpcRequest]: [{ method, params }]. *)
Record RequestArguments := {
  method : string;
  params : JsValue;
}.

(** [request(args)], up to and including its call of the dispatcher, which
    is the parameter [dispatch].  A rejection of the returned promise is the
    [Thrown] outcome. *)
Definition request {T} (dispatch : RequestArguments → M T) (args : JsValue) : M T :=
  if negb (truthy args) || negb (JsType_eqb (typeof args) TyObject) || isArray args then
    throw (InvalidRequest Msg_errors_invalidRequestArgs args)
  else
    let method := getProperty args "method" in
    let params := getProperty args "params" in
    match method with
    | JString m =>
        if (String.length m =? 0)%nat then
          throw (InvalidRequest Msg_errors_invalidRequestMethod args)
        else if negb (isUndefined params) && negb (isArray params)
                && (negb (JsType_eqb (typeof params) TyObject) || isNull params) then
          throw (InvalidRequest Msg_errors_invalidRequestParams args)
        else
          dispatch {| method := m; params := params |}
    | _ => throw (InvalidRequest Msg_errors_invalidRequestMethod args)
    end.

(** ** The indirection layer ([mutableProxyFactory]) *)

(** A handler object: [Reflect] itself, or an object given to [setHandler]. *)
Inductive HandlerObject :=
| Reflect
| HandlerLiteral (fields : list (string * JsValue)).

(** The closure variables of the factory and the proxy it returned. *)
Record Layer := {
  mutableTarget : Reference;
  mutableHandler : HandlerObject;
  proxy : Reference;          (* the object handed out, created once *)
  proxyTarget : Reference;    (* the target that proxy was created over *)
}.

(** [target instanceof Object]; the objects of this model all inherit from
    [Object.prototype]. *)
Definition instanceofObject (r : Reference) : bool :=
  match r with
  | Plain (JArray _) | Plain (JObject _) | Plain (JFunction _) => true
  | Plain _ => false
  | TheProvider | External _ _ | TheProxy => true
  end.

(** [setTarget(target)] *)
Definition setTarget (target : Reference) (l : Layer) : Outcome unit * Layer :=
  if negb (instanceofObject target) then
    (Thrown (Error "Target is not an object"), l)
  else
    (Returned tt,
     {| mutableTarget := target; mutableHandler := mutableHandler l;
        proxy := proxy l; proxyTarget := proxyTarget l |}).

(** The thirteen methods of [Reflect], which are also the trap names. *)
Definition reflectMethods : list string :=
  ["apply"; "construct"; "defineProperty"; "deleteProperty"; "get";
   "getOwnPropertyDescriptor"; "getPrototypeOf"; "has"; "isExtensible";
   "ownKeys"; "preventExtensions"; "set"; "setPrototypeOf"].

(** [Reflect] is an ordinary object: a property read on it also finds what
    it inherits from [Object.prototype], in a page that has not changed
    either object. *)
Definition objectPrototypeProperties : list string :=
  ["constructor"; "hasOwnProperty"; "isPrototypeOf"; "propertyIsEnumerable";
   "toLocaleString"; "toString"; "valueOf"; "__defineGetter__";
   "__defineSetter__"; "__lookupGetter__"; "__lookupSetter__"; "__proto__"].

(** [Reflect[key]] as a truth value: every property found is a function or
    an object. *)
Definition reflectHas (key : string) : bool :=
  bool_decide (key ∈ reflectMethods ++ objectPrototypeProperties).

(** [Object.keys(handler)] with the values; the methods of [Reflect] are
    not enumerable. *)
Definition handlerEntries (h : HandlerObject) : list (string * JsValue) :=
  match h with
  | Reflect => []
  | HandlerLiteral fs => fs
  end.

(** The loop of [setHandler] over the entries: the error thrown at the
    first entry that fails one of its two tests, if any.  The messages, which
    in the source also spell out the entry, are shortened. *)
Fixpoint checkTraps (entries : list (string * JsValue)) : option JsError :=
  match entries with
  | [] => None
  | (key, value) :: rest =>
      if negb (JsType_eqb (typeof value) TyFunction) then
        Some (Error "Trap is not a function")
      else if negb (reflectHas key) then
        Some (Error "Trap is not a valid trap")
      else checkTraps rest
  end.

(** [setHandler(handler)] *)
Definition setHandler (handler : HandlerObject) (l : Layer) : Outcome unit * Layer :=
  match checkTraps (handlerEntries handler) with
  | Some e => (Thrown e, l)
  | None =>
      (Returned tt,
       {| mutableTarget := mutableTarget l; mutableHandler := handler;
          proxy := proxy l; proxyTarget := proxyTarget l |})
  end.

(** [mutableProxyFactory()]: [setTarget({})], [setHandler(Reflect)], and the
    proxy created over the target of that moment. *)
Definition mutableProxyFactory : Layer :=
  {| mutableTarget := Plain (JObject []); mutableHandler := Reflect;
     proxy := TheProxy; proxyTarget := Plain (JObject []) |}.

(** One call that a trap of the proxy forwards:
    [mutableHandler[property].apply(null, [mutableTarget, ...args.slice(1)])]. *)
Record Forwarded := {
  fw_handler : HandlerObject;
  fw_trap : string;
  fw_target : Reference;
  fw_rest : list Reference;
}.

(** The function found by [get(target, property)] on the inner handler,
    applied to the arguments [args] the engine passes to a trap (the first
    of which is [proxyTarget]).  The delegate is read when the call is made. *)
Definition trap (property : string) (args : list Reference) (l : Layer) : Forwarded :=
  {| fw_handler := mutableHandler l; fw_trap := property;
     fw_target := mutableTarget l; fw_rest := tail args |}.

(** What happens around the proxy, in order: operations on it and
    reassignments of its delegate. *)
Inductive LayerStep :=
| Operation (property : string) (args : list Reference)
| Assign (target : Reference).

(** The forwarded calls of a run, oldest first, and the layer it leaves.  A
    [setTarget] that throws changes nothing.  The calls are recorded, not
    run: what [Reflect] then does to the delegate it is given is not part of
    this model. *)
Fixpoint runLayer (steps : list LayerStep) (l : Layer) : list Forwarded * Layer :=
  match steps with
  | [] => ([], l)
  | Operation property args :: rest =>
      let '(calls, l') := runLayer rest l in
      (trap property args l :: calls, l')
  | Assign target :: rest => runLayer rest (snd (setTarget target l))
  end.

(** ** The page: global slot, installer, dispatcher *)

Record Page := {
  window_ethereum : Reference;     (* [window.ethereum]; [Plain JUndefined] when unset *)
  ethereum_writable : bool;        (* the slot's [writable] attribute *)
  provider : BaseProvider;         (* the instance behind [providerInstance] *)
  provider_isMetaMask : bool;      (* [providerInstance.isMetaMask], set by the subclass *)
  layer : option Layer;            (* the indirection layer, once [mpf()] ran *)
  count : nat;
  interval : bool;                 (* whether the poll is still scheduled *)
  windowEvents : list string;      (* events dispatched on [window] *)
}.

Definition set_provider (f : BaseProvider → BaseProvider) (pg : Page) : Page :=
  {| window_ethereum := window_ethereum pg; ethereum_writable := ethereum_writable pg;
     provider := f (provider pg); provider_isMetaMask := provider_isMetaMask pg;
     layer := layer pg; count := count pg; interval := interval pg;
     windowEvents := windowEvents pg |}.

Definition set_layer (l : option Layer) (pg : Page) : Page :=
  {| window_ethereum := window_ethereum pg; ethereum_writable := ethereum_writable pg;
     provider := provider pg; provider_isMetaMask := provider_isMetaMask pg;
     layer := l; count := count pg; interval := interval pg;
     windowEvents := windowEvents pg |}.

Definition set_slot (r : Reference) (w : bool) (pg : Page) : Page :=
  {| window_ethereum := r; ethereum_writable := w;
     provider := provider pg; provider_isMetaMask := provider_isMetaMask pg;
     layer := layer pg; count := count pg; interval := interval pg;
     windowEvents := windowEvents pg |}.

Definition set_count (n : nat) (pg : Page) : Page :=
  {| window_ethereum := window_ethereum pg; ethereum_writable := ethereum_writable pg;
     provider := provider pg; provider_isMetaMask := provider_isMetaMask pg;
     layer := layer pg; count := n; interval := interval pg;
     windowEvents := windowEvents pg |}.

Definition clearInterval (pg : Page) : Page :=
  {| window_ethereum := window_ethereum pg; ethereum_writable := ethereum_writable pg;
     provider := provider pg; provider_isMetaMask := provider_isMetaMask pg;
     layer := layer pg; count := count pg; interval := false;
     windowEvents := windowEvents pg |}.

(** The object an operation on [r] ends at: the proxy hands every operation
    to its current delegate. *)
Definition delegateOf (pg : Page) (r : Reference) : Reference :=
  match r with
  | TheProxy => match layer pg with
                | Some l => mutableTarget l
                | None => Plain JUndefined
                end
  | _ => r
  end.

(** Truthiness of a slot value, and of its [isMetaMask] property. *)
Definition refTruthy (r : Reference) : bool :=
  match r with Plain v => truthy v | _ => true end.

Definition isMetaMask (pg : Page) (r : Reference) : bool :=
  match delegateOf pg r with
  | Plain v => truthy (getProperty v "isMetaMask")
  | TheProvider => provider_isMetaMask pg
  | External _ b => b
  | TheProxy => false
  end.

(** The body of the [setInterval] callback of [setGlobalProvider].  The
    poll only runs while the slot can still be written (see [pageStep]). *)
Definition intervalCallback (pg : Page) : Page :=
  let pg :=
    if refTruthy (window_ethereum pg) && isMetaMask pg (window_ethereum pg) then
      let pg := set_provider (setOriginalMetaMask (window_ethereum pg)) pg in
      let l := mutableProxyFactory in
      let pg := set_provider (setWaymontTargetSetter Layer_setTarget) pg in
      let pg := set_layer (Some (snd (setTarget TheProvider l))) pg in
      let pg := set_slot (proxy l) true pg in
      clearInterval pg
    else pg in
  let pg := set_count (S (count pg)) pg in
  if (10 <=? count pg)%nat then
    clearInterval (set_slot TheProvider false pg)
  else pg.

(** [setGlobalProvider(providerInstance)]: schedule the poll and announce. *)
Definition setGlobalProvider (pg : Page) : Page :=
  {| window_ethereum := window_ethereum pg; ethereum_writable := ethereum_writable pg;
     provider := provider pg; provider_isMetaMask := provider_isMetaMask pg;
     layer := layer pg; count := 0; interval := true;
     windowEvents := windowEvents pg ++ ["ethereum#initialized"] |}.

(** What the page goes through after [setGlobalProvider]: the timer fires,
    or another script assigns the global slot. *)
Inductive PageStep :=
| Tick
| Inject (r : Reference).

Definition pageStep (st : PageStep) (pg : Page) : Page :=
  match st with
  | Tick => if interval pg && ethereum_writable pg then intervalCallback pg else pg
  | Inject r => if ethereum_writable pg then set_slot r true pg else pg
  end.

Definition runPage (steps : list PageStep) (pg : Page) : Page :=
  foldl (λ pg st, pageStep st pg) pg steps.

(** A page in which only the provider has been constructed. *)
Definition freshPage (isMM : bool) : Page :=
  {| window_ethereum := Plain JUndefined; ethereum_writable := true;
     provider := new_BaseProvider; provider_isMetaMask := isMM;
     layer := None; count := 0; interval := false; windowEvents := [] |}.

(** The payload of [_rpcRequest]: one request or a batch. *)
Record JsonRpcRequest := {
  rpc_id : JsValue;
  rpc_jsonrpc : JsValue;
  rpc_method : string;
  rpc_params : JsValue;
}.

Inductive Payload :=
| Single (req : JsonRpcRequest)
| Batch (reqs : list JsonRpcRequest).

(** [payload.method === name]; an array has no [method]. *)
Definition methodIs (payload : Payload) (name : string) : bool :=
  match payload with
  | Single req => String.eqb (rpc_method req) name
  | Batch _ => false
  end.

(** [cb]: the consumer's callback, or the wrapper that first passes
    [res.result || []] to [_handleAccountsChanged]. *)
Inductive Callback :=
| ConsumerCallback
| AccountsCallback (isEthAccounts : bool).

(** Where [_rpcRequest] sent the call. *)
Inductive Dispatched :=
| Engine_handle (payload : Payload) (cb : Callback)
    (* [this._rpcEngine.handle(payload, cb)] *)
| Ethereum_request (receiver : Reference) (args : RequestArguments)
    (* [window.ethereum.request({ method, params })], run by [receiver] *)
| Ethereum_request_failed.
    (* that expression threw; the error went to the callback *)

(** The ordinary path of [_rpcRequest]: tag a single request with the
    protocol version if it has none, wrap the callback for the two account
    methods, and hand over to the engine. *)
Definition viaEngine (payload : Payload) : Dispatched :=
  match payload with
  | Single req =>
      let req := if truthy (rpc_jsonrpc req) then req
                 else {| rpc_id := rpc_id req; rpc_jsonrpc := JString "2.0";
                         rpc_method := rpc_method req; rpc_params := rpc_params req |} in
      let cb := if String.eqb (rpc_method req) "eth_accounts"
                   || String.eqb (rpc_method req) "eth_requestAccounts"
                then AccountsCallback (String.eqb (rpc_method req) "eth_accounts")
                else ConsumerCallback in
      Engine_handle (Single req) cb
  | Batch reqs => Engine_handle (Batch reqs) ConsumerCallback
  end.

(** [const { method, params } = payload] *)
Definition argumentsOf (payload : Payload) : RequestArguments :=
  match payload with
  | Single req => {| method := rpc_method req; params := rpc_params req |}
  | Batch _ => {| method := ""; params := JUndefined |}
  end.

(** [_rpcRequest(payload, callback)].  [choseThis] is what the promise of
    [_confirmWaymontMetaMaskSelector] resolves to: [true] for this provider,
    [false] for the other one.  It is only awaited when the two tests before
    it succeed. *)
Definition _rpcRequest (payload : Payload) (choseThis : bool) (pg : Page)
  : Outcome Dispatched * Page :=
  match _originalMetaMask (provider pg) with
  | Some original =>
      if methodIs payload "eth_requestAccounts" && negb choseThis then
        match _setWaymontTarget (provider pg), layer pg with
        | Some Layer_setTarget, Some l =>
            match setTarget original l with
            | (Thrown e, _) => (Thrown e, pg)
            | (Returned _, l') =>
                let pg := set_layer (Some l') pg in
                match delegateOf pg (window_ethereum pg) with
                | Plain _ => (Returned Ethereum_request_failed, pg)
                | receiver => (Returned (Ethereum_request receiver (argumentsOf payload)), pg)
                end
            end
        | _, _ => (Thrown (TypeError "this._setWaymontTarget is not a function"), pg)
        end
      else (Returned (viaEngine payload), pg)
  | None => (Returned (viaEngine payload), pg)
  end.

(** Running [cb(err, res)] on the instance, [result] being [res.result]. *)
Definition runCallback (cb : Callback) (result : JsValue) : M unit :=
  match cb with
  | ConsumerCallback => ret tt
  | AccountsCallback isEthAccounts =>
      _handleAccountsChanged (if truthy result then result else JArray []) isEthAccounts
  end.

(** ** The facade made by [initializeProvider] *)

(** An own property with the one attribute that matters to [delete]. *)
Record Property := {
  prop_value : JsValue;
  prop_configurable : bool;
}.

Record JsObject := {
  own : gmap string Property;
  extensible : bool;
}.

Inductive Completion :=
| Normal (v : JsValue)
| Abrupt (e : JsError).

(** [Reflect.deleteProperty] on an ordinary object. *)
Definition ordinaryDelete (k : string) (o : JsObject) : Completion * JsObject :=
  match own o !! k with
  | None => (Normal (JBoolean true), o)
  | Some d =>
      if prop_configurable d then
        (Normal (JBoolean true), {| own := delete k (own o); extensible := extensible o |})
      else (Normal (JBoolean false), o)
  end.

(** [Reflect.get] on an ordinary object, own data properties only. *)
Definition ordinaryGet (k : string) (o : JsObject) : JsValue :=
  match own o !! k with
  | None => JUndefined
  | Some d => prop_value d
  end.

(** A proxy handler; the facade's has the single trap [deleteProperty]. *)
Record ProxyHandler := {
  trap_deleteProperty : option (JsObject → string → JsValue);
}.

(** [{ deleteProperty: () => true }] *)
Definition facadeHandler : ProxyHandler :=
  {| trap_deleteProperty := Some (λ _ _, JBoolean true) |}.

(** [delete proxy[k]] as the language defines it for a proxy over [o]: no
    trap, the target's own delete; otherwise the trap's answer, checked
    against the target (a truthy answer is refused for a property that
    cannot be configured or a target that cannot be extended). *)
Definition proxyDelete (h : ProxyHandler) (k : string) (o : JsObject) : Completion * JsObject :=
  match trap_deleteProperty h with
  | None => ordinaryDelete k o
  | Some f =>
      if negb (truthy (f o k)) then (Normal (JBoolean false), o)
      else match own o !! k with
           | None => (Normal (JBoolean true), o)
           | Some d =>
               if negb (prop_configurable d) then
                 (Abrupt (TypeError "trap returned truish for a non-configurable property"), o)
               else if negb (extensible o) then
                 (Abrupt (TypeError "trap returned truish for a property of a non-extensible target"), o)
               else (Normal (JBoolean true), o)
           end
  end.

(** [proxy[k]]: the facade has no [get] trap. *)
Definition proxyGet (h : ProxyHandler) (k : string) (o : JsObject) : JsValue :=
  ordinaryGet k o.

(** [delete proxiedProvider[k]], [proxiedProvider] being what
    [initializeProvider] returns over the instance [o]. *)
Definition facadeDelete (k : string) (o : JsObject) : Completion * JsObject :=
  proxyDelete facadeHandler k o.

(** An object whose properties were all created by assignment, as the
    constructor does: each can be configured and the object extended. *)
Definition assignedOnly (o : JsObject) : Prop :=
  extensible o = true ∧ ∀ k d, own o !! k = Some d → prop_configurable d = true.

(** ** Runs used in the statements *)

(** A provider on which a non-recoverable disconnect has been processed. *)
Definition disconnectedProvider : BaseProvider :=
  after (_handleDisconnect false None) new_BaseProvider.




(** The snapshot of the first end-to-end scenario. *)
Definition scenario1 : JsValue :=
  JObject [("accounts", ofStrings ["0xabc"]); ("chainId", JString "0x1");
           ("isUnlocked", JBoolean true)].



(** The sanitized accounts list as the spec describes it: a non-array, or
    an array with a non-string element, counts as empty. *)
Definition sanitized (v : JsValue) : list string :=
  match v with
  | JArray l => if forallb isString l then asStrings l else []
  | _ => []
  end.

(** A provider object as the constructor builds it: fields created by
    assignment on an extensible object. *)
Definition constructedProvider : JsObject :=
  {| own := <["chainId" := {| prop_value := JNull; prop_configurable := true |}]>
            (<["selectedAddress" := {| prop_value := JNull; prop_configurable := true |}]>
             (<["request" := {| prop_value := JFunction "request"; prop_configurable := true |}]> ∅));
     extensible := true |}.

(** The other wallet, as it announces itself. *)
Definition metaMask : Reference := External "MetaMask" true.

(** The other wallet is in the page before the first poll. *)
Definition earlyDetection : Page :=
  runPage [Inject metaMask; Tick] (setGlobalProvider (freshPage true)).

(** The other wallet appears after nine polls, just before the tenth. *)
Definition lateDetection : Page :=
  runPage (replicate 9 Tick ++ [Inject metaMask; Tick]) (setGlobalProvider (freshPage true)).

(** [request({ method: "eth_requestAccounts" })] as it reaches [_rpcRequest]. *)
Definition requestAccounts : Payload :=
  Single {| rpc_id := JUndefined; rpc_jsonrpc := JUndefined;
            rpc_method := "eth_requestAccounts"; rpc_params := JUndefined |}.

(** Everything the backend can push between two calls of the initializer. *)
Inductive Notification :=
| Notify_connect (cid : JsValue)
| Notify_disconnect (isRecoverable : bool) (errorMessage : option string)
| Notify_chainChanged (cid : JsValue)
| Notify_accountsChanged (accs : JsValue) (isEthAccounts : bool)
| Notify_unlockStateChanged (accs : JsValue) (unlocked : JsValue).

Definition notify (validHex : string → bool) (n : Notification) : M unit :=
  match n with
  | Notify_connect c => _handleConnect c
  | Notify_disconnect r m => _handleDisconnect r m
  | Notify_chainChanged v => _handleChainChanged validHex v
  | Notify_accountsChanged v e => _handleAccountsChanged v e
  | Notify_unlockStateChanged a u => _handleUnlockStateChanged a u
  end.

(** The handlers called one after the other; one that throws leaves its
    partial effect and the next one runs. *)
Definition notifyAll (validHex : string → bool) (ns : list Notification) (p : BaseProvider) : BaseProvider :=
  foldl (λ p n, after (notify validHex n) p) p ns.

(** ** Notions used in the statements *)

(** The second half of [_handleAccountsChanged], from the comparison with
    the stored list on, as a computation of its own. *)
Definition commitAccounts (_accounts : list string) (isEthAccounts : bool) : M unit :=
  stored <- read (λ p, accounts (_state p)) ;;
  when (negb (dequal stored _accounts))
    (when (isEthAccounts && bool_decide (stored ≠ None))
       (log (Log_error (Literal "MetaMask: 'eth_accounts' unexpectedly updated accounts. Please report this bug.") (Some (ofStrings _accounts)))) ;;
     update (set_state (set_accounts (Some _accounts))) ;;
     sel <- read selectedAddress ;;
     when (differsFromFirst sel _accounts)
       (update (set_selectedAddress (firstOrNull _accounts))) ;;
     init <- read (λ p, initialized (_state p)) ;;
     when init (emit (Ev_accountsChanged _accounts))).

Arguments commitAccounts : simpl never.

(** The instance after the two sanitizing steps on an array. *)
Definition afterSanitizing (l : list JsValue) (p : BaseProvider) : BaseProvider :=
  if forallb isString l then p
  else push_log (Log_error (Literal "MetaMask: Received non-string account. Please report this bug.") (Some (JArray l))) p.

(** The instance is coherent when [selectedAddress] mirrors the head of
    the stored accounts. *)
Definition coherent (p : BaseProvider) : Prop :=
  selectedAddress p = accounts (_state p) ≫= head.

(** A computation that returns and leaves [initialized] alone. *)
Definition quiet (c : M unit) : Prop :=
  ∀ p, ∃ p', c p = (Returned tt, p') ∧ initialized (_state p') = initialized (_state p).

(** The three grounds for rejection, in the spec's words. *)
Definition notPlainObject (args : JsValue) : Prop :=
  ∀ fs, args ≠ JObject fs.

Definition methodMissingOrEmpty (args : JsValue) : Prop :=
  ∀ m, getProperty args "method" = JString m → m = "".

Definition paramsMalformed (args : JsValue) : Prop :=
  getProperty args "params" ≠ JUndefined ∧
  (∀ l, getProperty args "params" ≠ JArray l) ∧
  (∀ fs, getProperty args "params" ≠ JObject fs).

Definition invalidRequest (args : JsValue) : Prop :=
  notPlainObject args ∨ methodMissingOrEmpty args ∨ paramsMalformed args.

(** An entry of a handler table that [setHandler] lets pass: a function
    under a name for which [Reflect] has a property. *)
Definition validTrap (kv : string * JsValue) : Prop :=
  typeof kv.2 = TyFunction ∧ reflectHas kv.1 = true.

(** ** Runs of the whole state machine *)

(** A call on the instance: the initializer or one of the handlers. *)
Inductive Action :=
| Act_initialize (initialState : JsValue)
| Act_notify (n : Notification).

Definition perform (validHex : string → bool) (a : Action) : M unit :=
  match a with
  | Act_initialize i => _initializeState validHex i
  | Act_notify n => notify validHex n
  end.

Definition performAll (validHex : string → bool) (acts : list Action) (p : BaseProvider) : BaseProvider :=
  foldl (λ p a, after (perform validHex a) p) p acts.

(** The part of the initializer between its guard and the setting of the
    flag: the four handler calls for a truthy snapshot, nothing otherwise. *)
Definition applySnapshot (validHex : string → bool) (initialState : JsValue) : M unit :=
  if truthy initialState then
    _handleConnect (getProperty initialState "chainId") ;;
    _handleChainChanged validHex (getProperty initialState "chainId") ;;
    _handleUnlockStateChanged (getProperty initialState "accounts")
                              (getProperty initialState "isUnlocked") ;;
    _handleAccountsChanged (getProperty initialState "accounts") false
  else ret tt.

(** What the [connect] and [disconnect] events of a trace say about the
    connection: the last of them decides, none means not connected. *)
Definition connectivity (es : list Event) : bool :=
  foldl (λ b e, match e with
                | Ev_connect _ => true
                | Ev_disconnect _ => false
                | _ => b
                end) false es.

(** Reading a trace for the order of its events: [Some seen] while every
    [chainChanged] and [accountsChanged] came after the internal signal and
    the signal came at most once ([seen] tells whether it came), [None] as
    soon as that order is broken. *)
Definition gate (seen : option bool) (e : Event) : option bool :=
  match seen, e with
  | None, _ => None
  | Some true, Ev_initialized => None
  | Some false, Ev_initialized => Some true
  | Some b, Ev_chainChanged _ | Some b, Ev_accountsChanged _ => if b then Some b else None
  | Some b, _ => Some b
  end.

Definition gated (es : list Event) : option bool := foldl gate (Some false) es.

(** [selectedAddress] as the stored accounts determine it. *)
Definition selectedOf (stored : option (list string)) : option string :=
  match stored with
  | None => None
  | Some l => firstOrNull l
  end.

(** [request(args)] followed by the dispatcher it calls: the validated pair
    becomes the payload [{ method, params }], which has no id and no version. *)
Definition requestThenDispatch (args : JsValue) (choseThis : bool) (pg : Page)
  : Outcome Dispatched * Page :=
  match request (λ a, ret a) args (provider pg) with
  | (Returned a, _) =>
      _rpcRequest (Single {| rpc_id := JUndefined; rpc_jsonrpc := JUndefined;
                             rpc_method := method a; rpc_params := params a |})
                  choseThis pg
  | (Thrown e, _) => (Thrown e, pg)
  end.

Definition isTick (st : PageStep) : bool :=
  match st with Tick => true | Inject _ => false end.

(** How often the timer fired in a run. *)
Fixpoint countTicks (steps : list PageStep) : nat :=
  match steps with
  | [] => 0
  | st :: rest => (if isTick st then 1 else 0) + countTicks rest
  end.

(** A value another script may put in the slot that does not pass for the
    other wallet: undefined or falsy, or an object without a truthy
    [isMetaMask]. *)
Definition unflagged (r : Reference) : bool :=
  match r with
  | Plain v => negb (truthy v && truthy (getProperty v "isMetaMask"))
  | External _ b => negb b
  | TheProvider | TheProxy => false
  end.

Definition unflaggedStep (st : PageStep) : bool :=
  match st with
  | Tick => true
  | Inject r => unflagged r
  end.

(** The installer is still polling and has found nothing. *)
Definition polling (pg : Page) : Prop :=
  interval pg = true ∧ ethereum_writable pg = true ∧ count pg < 10 ∧
  unflagged (window_ethereum pg) = true ∧
  _originalMetaMask (provider pg) = None ∧ layer pg = None.

(** The installer has put the provider in the slot for good. *)
Definition locked (pg : Page) : Prop :=
  interval pg = false ∧ window_ethereum pg = TheProvider ∧ ethereum_writable pg = false.

(** ** The installer of the second build

    The compiled [setGlobalProvider] that installs the proxy at once and
    polls afterwards. *)

Section SecondBuild.

(** [r.isWaymont] is a flag of objects that are not among the sources; it is
    left open. *)
Variable isWaymont : Page → Reference → bool.

(** The body of its [setInterval] callback. *)
Definition intervalCallback2 (pg : Page) : Page :=
  let pg :=
    if refTruthy (window_ethereum pg) && isMetaMask pg (window_ethereum pg)
       && negb (isWaymont pg (window_ethereum pg)) then
      let pg := set_provider (setOriginalMetaMask (window_ethereum pg)) pg in
      let pg := set_slot TheProvider false pg in
      let pg := {| window_ethereum := window_ethereum pg; ethereum_writable := ethereum_writable pg;
                   provider := provider pg; provider_isMetaMask := provider_isMetaMask pg;
                   layer := layer pg; count := count pg; interval := interval pg;
                   windowEvents := windowEvents pg ++ ["ethereum#initialized"] |} in
      clearInterval pg
    else pg in
  let pg := set_count (S (count pg)) pg in
  if (10 <=? count pg)%nat then
    clearInterval (set_slot TheProvider false pg)
  else pg.

(** Its [setGlobalProvider(providerInstance)], on a page whose slot can be
    written: make the layer, point it at the provider, install the proxy,
    announce, schedule the poll. *)
Definition setGlobalProvider2 (pg : Page) : Page :=
  let l := mutableProxyFactory in
  let pg := set_provider (setWaymontTargetSetter Layer_setTarget) pg in
  let pg := set_layer (Some (snd (setTarget TheProvider l))) pg in
  let pg := set_slot (proxy l) true pg in
  {| window_ethereum := window_ethereum pg; ethereum_writable := ethereum_writable pg;
     provider := provider pg; provider_isMetaMask := provider_isMetaMask pg;
     layer := layer pg; count := 0; interval := true;
     windowEvents := windowEvents pg ++ ["ethereum#initialized"] |}.

Definition pageStep2 (st : PageStep) (pg : Page) : Page :=
  match st with
  | Tick => if interval pg then intervalCallback2 pg else pg
  | Inject r => if ethereum_writable pg then set_slot r true pg else pg
  end.

Definition runPage2 (steps : list PageStep) (pg : Page) : Page :=
  foldl (λ pg st, pageStep2 st pg) pg steps.

End SecondBuild.

(** The layer as both installers leave it: made by the factory and pointed
    at the provider. *)
Definition providerLayer : Layer := snd (setTarget TheProvider mutableProxyFactory).

(** The second build is still polling and has found nothing. *)
Definition polling2 (pg : Page) : Prop :=
  interval pg = true ∧ ethereum_writable pg = true ∧ count pg < 10 ∧
  _originalMetaMask (provider pg) = None ∧
  _setWaymontTarget (provider pg) = Some Layer_setTarget ∧
  layer pg = Some providerLayer ∧
  windowEvents pg = ["ethereum#initialized"].

(** The second build has put the provider in the slot for good. *)
Definition locked2 (pg : Page) : Prop :=
  interval pg = false ∧ window_ethereum pg = TheProvider ∧ ethereum_writable pg = false ∧
  _setWaymontTarget (provider pg) = Some Layer_setTarget ∧
  layer pg = Some providerLayer ∧
  windowEvents pg =
    "ethereum#initialized" ::
    match _originalMetaMask (provider pg) with
    | Some _ => ["ethereum#initialized"]
    | None => []
    end ∧
  (∀ o, _originalMetaMask (provider pg) = Some o → instanceofObject o = true).

(** ** Reduction behaviour and tactics *)

Arguments after : simpl never.
Arguments _handleConnect : simpl never.
Arguments _handleDisconnect : simpl never.
Arguments _handleAccountsChanged : simpl never.
Arguments _handleUnlockStateChanged : simpl never.
Arguments _handleChainChanged : simpl never.
Arguments _initializeState : simpl never.

Ltac unfold_M :=
  unfold after, returns, throws, emits, emit, log, when, update, read, throw, bind, ret in *.

(** * Properties *)

(** ** Unfolding computations *)

Lemma after_eq {A} (c : M A) (p p' : BaseProvider) (o : Outcome A) :
  c p = (o, p') → after c p = p'.
Proof. unfold after. intros ->. reflexivity. Qed.

Lemma emits_eq {A} (c : M A) (p p' : BaseProvider) (o : Outcome A) (es : list Event) :
  c p = (o, p') → emitted p' = emitted p ++ es → emits c p = es.
Proof.
  intros Hc He. unfold emits. rewrite (after_eq _ _ _ _ Hc), He.
  apply drop_app_length.
Qed.

(** ** The handlers as state transformers *)

Lemma handleConnect_eq (c : JsValue) (p : BaseProvider) :
  _handleConnect c p =
  (Returned tt,
   if isConnected (_state p) then p
   else push_log (Log_debug (Msg_info_connected c))
          (push_event (Ev_connect c) (set_state (set_isConnected true) p))).
Proof.
  unfold _handleConnect. unfold_M.
  destruct (isConnected (_state p)); reflexivity.
Qed.

Lemma handleConnect_connected (c : JsValue) (p : BaseProvider) :
  isConnected (_state (after (_handleConnect c) p)) = true.
Proof.
  rewrite (after_eq _ _ _ _ (handleConnect_eq c p)).
  destruct (isConnected (_state p)) eqn:E; [exact E | reflexivity].
Qed.

Lemma handleConnect_frame (c : JsValue) (p : BaseProvider) :
  let p' := after (_handleConnect c) p in
  accounts (_state p') = accounts (_state p) ∧
  isUnlocked (_state p') = isUnlocked (_state p) ∧
  initialized (_state p') = initialized (_state p) ∧
  isPermanentlyDisconnected (_state p') = isPermanentlyDisconnected (_state p) ∧
  chainId p' = chainId p ∧
  selectedAddress p' = selectedAddress p.
Proof.
  cbv zeta. rewrite (after_eq _ _ _ _ (handleConnect_eq c p)).
  destruct (isConnected (_state p)); cbn; auto 10.
Qed.

Section ChainChanged.
Variable validHex : string → bool.

Lemma handleChainChanged_invalid (v : JsValue) (p : BaseProvider) :
  isValidChainId validHex v = None →
  _handleChainChanged validHex v p =
  (Returned tt,
   push_log (Log_error Msg_errors_invalidNetworkParams (Some (JObject [("chainId", v)]))) p).
Proof.
  intros H. unfold _handleChainChanged. rewrite H. reflexivity.
Qed.

Lemma handleChainChanged_valid (v : JsValue) (c : string) (p : BaseProvider) :
  isValidChainId validHex v = Some c →
  _handleChainChanged validHex v p =
  (Returned tt,
   let p1 := after (_handleConnect (JString c)) p in
   if bool_decide (Some c = chainId p1) then p1
   else if initialized (_state p1) then push_event (Ev_chainChanged c) (set_chainId (Some c) p1)
        else set_chainId (Some c) p1).
Proof.
  intros H. unfold _handleChainChanged. rewrite H.
  unfold bind at 1. rewrite (after_eq _ _ _ _ (handleConnect_eq (JString c) p)), handleConnect_eq.
  set (p1 := if isConnected (_state p) then _ else _).
  unfold_M. cbn.
  destruct (bool_decide _); cbn; [reflexivity |].
  destruct (initialized _); reflexivity.
Qed.

Lemma handleChainChanged_returns (v : JsValue) (p : BaseProvider) :
  fst (_handleChainChanged validHex v p) = Returned tt.
Proof.
  destruct (isValidChainId validHex v) as [c|] eqn:E.
  - rewrite (handleChainChanged_valid _ _ _ E). reflexivity.
  - rewrite (handleChainChanged_invalid _ _ E). reflexivity.
Qed.

Lemma handleChainChanged_frame (v : JsValue) (p : BaseProvider) :
  let p' := after (_handleChainChanged validHex v) p in
  accounts (_state p') = accounts (_state p) ∧
  isUnlocked (_state p') = isUnlocked (_state p) ∧
  initialized (_state p') = initialized (_state p) ∧
  isPermanentlyDisconnected (_state p') = isPermanentlyDisconnected (_state p) ∧
  selectedAddress p' = selectedAddress p.
Proof.
  cbv zeta. destruct (isValidChainId validHex v) as [c|] eqn:E.
  - rewrite (after_eq _ _ _ _ (handleChainChanged_valid _ _ _ E)).
    destruct (handleConnect_frame (JString c) p) as (Ha & Hu & Hi & Hp & _ & Hs).
    cbv zeta. destruct (bool_decide _); [auto 10 |].
    destruct (initialized (_state (after _ p))) eqn:Ei; cbn; repeat split; congruence.
  - rewrite (after_eq _ _ _ _ (handleChainChanged_invalid _ _ E)). cbn. auto 10.
Qed.

Lemma handleChainChanged_revives (c : string) (p : BaseProvider) :
  validHex c = true →
  let p' := after (_handleChainChanged validHex (JString c)) p in
  isConnected (_state p') = true ∧ chainId p' = Some c.
Proof.
  intros Hc.
  assert (E : isValidChainId validHex (JString c) = Some c) by (cbn; rewrite Hc; reflexivity).
  cbv zeta. rewrite (after_eq _ _ _ _ (handleChainChanged_valid _ _ _ E)).
  pose proof (handleConnect_connected (JString c) p) as Hk.
  cbv zeta. destruct (bool_decide _) eqn:B.
  - apply bool_decide_eq_true in B. auto.
  - destruct (initialized _); cbn; auto.
Qed.



End ChainChanged.

(** A processed non-recoverable disconnect clears the instance. *)
Lemma handleDisconnect_permanent (msg : option string) (p : BaseProvider) :
  isConnected (_state p) || negb (isPermanentlyDisconnected (_state p)) = true →
  let p' := after (_handleDisconnect false msg) p in
  isPermanentlyDisconnected (_state p') = true ∧
  isConnected (_state p') = false ∧
  accounts (_state p') = None ∧
  chainId p' = None ∧
  selectedAddress p' = None ∧
  isUnlocked (_state p') = false.
Proof.
  intros H. unfold _handleDisconnect. unfold_M. cbn.
  rewrite andb_true_r. rewrite H. cbn. auto 10.
Qed.




(** ** The accounts-changed handler *)

Lemma handleAccountsChanged_array (l : list JsValue) (isEth : bool) (p : BaseProvider) :
  _handleAccountsChanged (JArray l) isEth p =
  commitAccounts (sanitized (JArray l)) isEth (afterSanitizing l p).
Proof.
  unfold _handleAccountsChanged, afterSanitizing, sanitized. cbn [iterate].
  unfold bind at 1. unfold ret at 1. unfold bind at 1.
  destruct (forallb isString l); reflexivity.
Qed.

Lemma handleAccountsChanged_not_iterable (v : JsValue) (isEth : bool) (p : BaseProvider) :
  iterate v = None →
  _handleAccountsChanged v isEth p =
  (Thrown (TypeError "accounts is not iterable"),
   push_log (Log_error (Literal "MetaMask: Received invalid accounts parameter. Please report this bug.") (Some v)) p).
Proof.
  intros H. unfold _handleAccountsChanged. rewrite H.
  destruct v; try discriminate H; reflexivity.
Qed.

Lemma dequal_true (stored : option (list string)) (s : list string) :
  dequal stored s = true ↔ stored = Some s.
Proof.
  destruct stored as [l|]; cbn.
  - rewrite bool_decide_eq_true. split; congruence.
  - split; discriminate.
Qed.

(** What [commitAccounts] does, field by field. *)
Lemma commitAccounts_eq (s : list string) (isEth : bool) (p : BaseProvider) :
  ∃ p', commitAccounts s isEth p = (Returned tt, p') ∧
    accounts (_state p') = Some s ∧
    selectedAddress p' =
      (if dequal (accounts (_state p)) s then selectedAddress p
       else if differsFromFirst (selectedAddress p) s then firstOrNull s
            else selectedAddress p) ∧
    emitted p' =
      emitted p ++
      (if negb (dequal (accounts (_state p)) s) && initialized (_state p)
       then [Ev_accountsChanged s] else []) ∧
    isConnected (_state p') = isConnected (_state p) ∧
    isUnlocked (_state p') = isUnlocked (_state p) ∧
    initialized (_state p') = initialized (_state p) ∧
    isPermanentlyDisconnected (_state p') = isPermanentlyDisconnected (_state p) ∧
    chainId p' = chainId p.
Proof.
  unfold commitAccounts. unfold_M.
  destruct (dequal (accounts (_state p)) s) eqn:D; cbn.
  - apply dequal_true in D. eexists; split; [reflexivity |].
    rewrite app_nil_r. auto 10.
  - destruct (isEth && bool_decide (accounts (_state p) ≠ None)); cbn;
      destruct (differsFromFirst (selectedAddress p) s); cbn;
      destruct (initialized (_state p)) eqn:Ei; cbn;
      (eexists; split; [reflexivity |]); cbn; rewrite ?app_nil_r; auto 10.
Qed.

Lemma afterSanitizing_frame (l : list JsValue) (p : BaseProvider) :
  _state (afterSanitizing l p) = _state p ∧
  selectedAddress (afterSanitizing l p) = selectedAddress p ∧
  chainId (afterSanitizing l p) = chainId p ∧
  emitted (afterSanitizing l p) = emitted p.
Proof. unfold afterSanitizing. destruct (forallb isString l); cbn; auto. Qed.

(** On an array the handler returns, stores the sanitized list, and emits
    at most the one event. *)
Lemma handleAccountsChanged_array_spec (l : list JsValue) (isEth : bool) (p : BaseProvider) :
  let s := sanitized (JArray l) in
  ∃ p', _handleAccountsChanged (JArray l) isEth p = (Returned tt, p') ∧
    accounts (_state p') = Some s ∧
    selectedAddress p' =
      (if dequal (accounts (_state p)) s then selectedAddress p
       else if differsFromFirst (selectedAddress p) s then firstOrNull s
            else selectedAddress p) ∧
    emitted p' =
      emitted p ++
      (if negb (dequal (accounts (_state p)) s) && initialized (_state p)
       then [Ev_accountsChanged s] else []) ∧
    isConnected (_state p') = isConnected (_state p) ∧
    isUnlocked (_state p') = isUnlocked (_state p) ∧
    initialized (_state p') = initialized (_state p) ∧
    isPermanentlyDisconnected (_state p') = isPermanentlyDisconnected (_state p) ∧
    chainId p' = chainId p.
Proof.
  intros s. rewrite handleAccountsChanged_array. fold s.
  destruct (afterSanitizing_frame l p) as (Hst & Hsel & Hc & He).
  destruct (commitAccounts_eq s isEth (afterSanitizing l p)) as (p' & Hp' & H).
  exists p'. split; [exact Hp' |].
  rewrite Hst, Hsel, Hc, He in H. exact H.
Qed.

Lemma characters_are_strings (cs : list Ascii.ascii) :
  forallb isString (map (λ c, JString (String c "")) cs) = true.
Proof. induction cs as [| c cs IH]; cbn; [reflexivity | exact IH]. Qed.

(** A string is not an array but can be iterated: it is taken as empty. *)
Lemma handleAccountsChanged_string (s : string) (isEth : bool) (p : BaseProvider) :
  _handleAccountsChanged (JString s) isEth p =
  commitAccounts [] isEth
    (push_log (Log_error (Literal "MetaMask: Received invalid accounts parameter. Please report this bug.") (Some (JString s))) p).
Proof.
  unfold _handleAccountsChanged. cbn [iterate].
  rewrite characters_are_strings. reflexivity.
Qed.

(** The handler returns exactly on the values a [for ... of] accepts. *)
Lemma handleAccountsChanged_returns_iff (v : JsValue) (isEth : bool) (p : BaseProvider) :
  returns (_handleAccountsChanged v isEth) p = true ↔ iterate v ≠ None.
Proof.
  unfold returns. destruct (iterate v) as [visited|] eqn:E.
  - split; [discriminate | intros _].
    destruct v as [| | b | n | s | elems | fs | nm]; try discriminate E.
    + rewrite handleAccountsChanged_string.
      destruct (commitAccounts_eq [] isEth
        (push_log (Log_error (Literal "MetaMask: Received invalid accounts parameter. Please report this bug.") (Some (JString s))) p))
        as (p' & -> & _). reflexivity.
    + destruct (handleAccountsChanged_array_spec elems isEth p) as (p' & -> & _). reflexivity.
  - rewrite (handleAccountsChanged_not_iterable _ _ _ E). cbn. split; [discriminate | congruence].
Qed.

(** The part of C3 the code does satisfy: on an array whose sanitized form
    does not start with the empty string, a coherent instance ends with
    [selectedAddress] equal to the first sanitized account, or [null]. *)
Lemma handleAccountsChanged_selects_first (l : list JsValue) (isEth : bool) (p : BaseProvider) :
  coherent p →
  head (sanitized (JArray l)) ≠ Some "" →
  returns (_handleAccountsChanged (JArray l) isEth) p = true ∧
  selectedAddress (after (_handleAccountsChanged (JArray l) isEth) p) = head (sanitized (JArray l)) ∧
  coherent (after (_handleAccountsChanged (JArray l) isEth) p).
Proof.
  intros Hco Hne.
  destruct (handleAccountsChanged_array_spec l isEth p) as (p' & Hrun & Ha & Hs & _).
  cbv zeta in *. set (s := sanitized (JArray l)) in *.
  unfold returns. rewrite (after_eq _ _ _ _ Hrun), Hrun. cbn [fst].
  assert (Hsel : selectedAddress p' = head s).
  { rewrite Hs. destruct (dequal (accounts (_state p)) s) eqn:D.
    - apply dequal_true in D. unfold coherent in Hco. rewrite Hco, D. reflexivity.
    - unfold differsFromFirst, firstOrNull. destruct (head s) as [a|] eqn:Hh; [| reflexivity].
      destruct (bool_decide (selectedAddress p = Some a)) eqn:B; cbn.
      + apply bool_decide_eq_true in B. exact B.
      + destruct (String.eqb a "") eqn:Ea; [| reflexivity].
        apply String.eqb_eq in Ea. subst a. congruence. }
  split; [reflexivity |]. split; [exact Hsel |].
  unfold coherent. rewrite Hsel, Ha. reflexivity.
Qed.

Lemma handleAccountsChanged_selects_first_witness :
  selectedAddress (after (_handleAccountsChanged (ofStrings ["0xabc"; "0xdef"]) false) new_BaseProvider)
  = Some "0xabc".
Proof.
  refine (proj1 (proj2 (handleAccountsChanged_selects_first
            (map JString ["0xabc"; "0xdef"]) false new_BaseProvider _ _))).
  - reflexivity.
  - vm_compute. discriminate.
Defined.

(** C3: the claim holds for arrays (see above) but not for every value: a
    value that is neither an array nor iterable passes the [Array.isArray]
    guard, which resets [_accounts] only, and the loop over [accounts]
    throws.  The callback wrapper of [_rpcRequest] delivers such a value when
    the result is a number.  Separately, an array that starts with the empty
    string selects [null]. *)
Theorem handleAccountsChanged_throws_on_non_iterable :
  fst (_handleAccountsChanged JUndefined false new_BaseProvider)
    = Thrown (TypeError "accounts is not iterable") ∧
  fst (_handleAccountsChanged (JObject []) false new_BaseProvider)
    = Thrown (TypeError "accounts is not iterable") ∧
  fst (runCallback (AccountsCallback true) (JNumber 42) new_BaseProvider)
    = Thrown (TypeError "accounts is not iterable") ∧
  sanitized JUndefined = [] ∧
  sanitized (ofStrings [""]) = [""] ∧
  selectedAddress (after (_handleAccountsChanged (ofStrings [""]) false) new_BaseProvider) = None.
Proof. vm_compute. auto 10. Qed.

(** On every value the loop can iterate the handler returns, stores the
    sanitized list, and emits at most the one event. *)
Lemma handleAccountsChanged_iterable_spec (v : JsValue) (isEth : bool) (p : BaseProvider) :
  iterate v ≠ None →
  let s := sanitized v in
  ∃ p', _handleAccountsChanged v isEth p = (Returned tt, p') ∧
    accounts (_state p') = Some s ∧
    emitted p' =
      emitted p ++
      (if negb (dequal (accounts (_state p)) s) && initialized (_state p)
       then [Ev_accountsChanged s] else []) ∧
    initialized (_state p') = initialized (_state p).
Proof.
  intros Hv s. subst s.
  destruct v as [| | b | n | s | elems | fs | nm]; try (exfalso; apply Hv; reflexivity).
  - rewrite handleAccountsChanged_string.
    match goal with |- context [commitAccounts ?a ?b ?q] =>
      destruct (commitAccounts_eq a b q) as (p' & Hrun & Ha & _ & He & _ & _ & Hi & _) end.
    exists p'. cbn in *. auto.
  - destruct (handleAccountsChanged_array_spec elems isEth p)
      as (p' & Hrun & Ha & _ & He & _ & _ & Hi & _).
    exists p'. auto.
Qed.

(** The part of C4 the code does satisfy: for every call of the
    accounts-changed handler with a value the loop can iterate (an array or
    a string), [accountsChanged] is emitted (once, carrying the sanitized
    list) if and only if the sanitized list differs from the stored one
    under order-sensitive equality and [initialized] is true; so it is never
    emitted while [initialized] is false. *)
Lemma accountsChanged_emitted_iff (v : JsValue) (isEth : bool) (p : BaseProvider) :
  iterate v ≠ None →
  let s := sanitized v in
  let es := emits (_handleAccountsChanged v isEth) p in
  (es = [Ev_accountsChanged s] ∨ es = []) ∧
  (es = [Ev_accountsChanged s] ↔
     accounts (_state p) ≠ Some s ∧ initialized (_state p) = true) ∧
  (initialized (_state p) = false → es = []).
Proof.
  intros Hv s es.
  destruct (handleAccountsChanged_iterable_spec v isEth p Hv) as (p' & Hrun & _ & He & _).
  cbv zeta in He. fold s in He.
  assert (Hes : es = if negb (dequal (accounts (_state p)) s) && initialized (_state p)
                     then [Ev_accountsChanged s] else [])
    by (exact (emits_eq _ _ _ _ _ Hrun He)).
  rewrite Hes. clear Hes He Hrun es. clearbody s.
  destruct (dequal (accounts (_state p)) s) eqn:D;
    destruct (initialized (_state p)) eqn:I; cbn.
  - apply dequal_true in D. split; [auto |]. split; [| auto].
    split; [discriminate | intros [H _]; congruence].
  - apply dequal_true in D. split; [auto |]. split; [| auto].
    split; [discriminate | intros [_ H]; discriminate].
  - split; [auto |]. split; [| discriminate].
    split; [intros _ | reflexivity].
    split; [| reflexivity]. intros H. apply dequal_true in H. congruence.
  - split; [auto |]. split; [| auto].
    split; [discriminate | intros [_ H]; discriminate].
Qed.

Example accountsChanged_emitted_once :
  emits (_handleAccountsChanged (ofStrings ["0xabc"]) false) new_BaseProvider = [] ∧
  emits (_handleAccountsChanged (ofStrings ["0xdef"]) false)
    (after (_initializeState hexPrefixed scenario1) new_BaseProvider)
  = [Ev_accountsChanged ["0xdef"]] ∧
  emits (_handleAccountsChanged (JString "0xdef") false)
    (after (_initializeState hexPrefixed scenario1) new_BaseProvider)
  = [Ev_accountsChanged []].
Proof. vm_compute. auto. Qed.

(** C4: the claim holds for every value the loop can iterate (see above),
    but not for every call.  A value that is neither an array nor iterable
    counts as the empty list, which differs from any stored list but the
    empty one; on an initialized instance the claim therefore asks for the
    event.  The handler instead throws in the loop header, before the
    comparison: nothing is emitted and the stored list stays. *)
Theorem accountsChanged_lost_on_non_iterable (v : JsValue) (isEth : bool) (p : BaseProvider) :
  iterate v = None →
  initialized (_state p) = true →
  accounts (_state p) ≠ Some [] →
  sanitized v = [] ∧
  dequal (accounts (_state p)) (sanitized v) = false ∧
  fst (_handleAccountsChanged v isEth p) = Thrown (TypeError "accounts is not iterable") ∧
  emits (_handleAccountsChanged v isEth) p = [] ∧
  accounts (_state (after (_handleAccountsChanged v isEth) p)) = accounts (_state p).
Proof.
  intros Hv _ Hne.
  assert (Hs : sanitized v = []) by (destruct v; try reflexivity; discriminate Hv).
  pose proof (handleAccountsChanged_not_iterable v isEth p Hv) as Hrun.
  split; [exact Hs |]. split.
  - rewrite Hs. destruct (dequal (accounts (_state p)) []) eqn:D; [| reflexivity].
    apply dequal_true in D. contradiction.
  - rewrite (after_eq _ _ _ _ Hrun), Hrun. cbn [fst].
    split; [reflexivity |]. split; [| reflexivity].
    apply (emits_eq _ _ _ _ _ Hrun). cbn. rewrite app_nil_r. reflexivity.
Qed.

Lemma accountsChanged_lost_on_non_iterable_witness :
  let p := after (_initializeState hexPrefixed scenario1) new_BaseProvider in
  initialized (_state p) = true ∧
  accounts (_state p) = Some ["0xabc"] ∧
  dequal (accounts (_state p)) (sanitized JUndefined) = false ∧
  fst (_handleAccountsChanged JUndefined false p) = Thrown (TypeError "accounts is not iterable") ∧
  emits (_handleAccountsChanged JUndefined false) p = [].
Proof.
  intros p.
  assert (Hne : accounts (_state p) ≠ Some []) by (vm_compute; discriminate).
  destruct (accountsChanged_lost_on_non_iterable JUndefined false p eq_refl eq_refl Hne)
    as (_ & Hd & Ht & He & _).
  split; [reflexivity |]. split; [reflexivity |]. auto.
Defined.

(** Reordering counts as a change. *)
Example dequal_is_order_sensitive :
  dequal (Some ["0xa"; "0xb"]) ["0xb"; "0xa"] = false.
Proof. vm_compute. reflexivity. Qed.

(** ** The chain-changed handler on an invalid chain id *)

(** C8: a chain id that fails validation leaves [chainId] and every other
    field of the instance as it was and emits nothing; the handler logs once
    and returns. *)
Theorem invalid_chainId_is_dropped
    (validHex : string → bool) (v : JsValue) (p : BaseProvider) :
  isValidChainId validHex v = None →
  let p' := after (_handleChainChanged validHex v) p in
  returns (_handleChainChanged validHex v) p = true ∧
  chainId p' = chainId p ∧
  emits (_handleChainChanged validHex v) p = [] ∧
  _state p' = _state p ∧
  selectedAddress p' = selectedAddress p ∧
  emitted p' = emitted p ∧
  _log p' = _log p ++ [Log_error Msg_errors_invalidNetworkParams (Some (JObject [("chainId", v)]))].
Proof.
  intros H p'. subst p'.
  pose proof (handleChainChanged_invalid validHex v p H) as Hrun.
  unfold returns. rewrite (after_eq _ _ _ _ Hrun), Hrun. cbn [fst].
  split; [reflexivity |]. split; [reflexivity |].
  split; [apply (emits_eq _ _ _ _ _ Hrun); cbn; rewrite app_nil_r; reflexivity |].
  cbn. auto.
Qed.

Lemma invalid_chainId_is_dropped_witness :
  chainId (after (_handleChainChanged hexPrefixed (JString "mainnet"))
             (after (_handleChainChanged hexPrefixed (JString "0x1")) new_BaseProvider))
  = Some "0x1".
Proof.
  pose proof (invalid_chainId_is_dropped hexPrefixed (JString "mainnet")
                (after (_handleChainChanged hexPrefixed (JString "0x1")) new_BaseProvider)
                eq_refl) as H.
  cbv zeta in H. destruct H as (_ & Hc & _).
  rewrite Hc. reflexivity.
Defined.

(** ** The one-time initializer *)

Section Initializer.
Variable validHex : string → bool.

Lemma quiet_handleAccountsChanged (l : list JsValue) (isEth : bool) :
  quiet (_handleAccountsChanged (JArray l) isEth).
Proof.
  intros p. destruct (handleAccountsChanged_array_spec l isEth p)
    as (p' & Hrun & _ & _ & _ & _ & _ & Hi & _).
  exists p'. auto.
Qed.

Lemma initializeState_again (a : JsValue) (p : BaseProvider) :
  initialized (_state p) = true →
  _initializeState validHex a p = (Thrown (Error "Provider already initialized."), p).
Proof.
  intros Hi. unfold _initializeState. unfold_M. rewrite Hi. reflexivity.
Qed.

(** Past its guard the initializer runs the handler calls and, if none of
    them threw, sets the flag and emits the signal. *)
Lemma initializeState_unfold (a : JsValue) (p : BaseProvider) :
  initialized (_state p) = false →
  _initializeState validHex a p =
  match applySnapshot validHex a p with
  | (Returned _, p1) => (Returned tt, push_event Ev_initialized (set_state (set_initialized true) p1))
  | (Thrown e, p1) => (Thrown e, p1)
  end.
Proof.
  intros Hi. unfold _initializeState, applySnapshot. cbv zeta.
  unfold bind at 1, read at 1. rewrite Hi. unfold bind at 1, ret at 1.
  unfold bind at 1.
  match goal with |- context [match ?c p with _ => _ end] => destruct (c p) as [[[]|e] p1] end;
    reflexivity.
Qed.

Lemma handleDisconnect_initialized (r : bool) (m : option string) (p : BaseProvider) :
  initialized (_state (after (_handleDisconnect r m) p)) = initialized (_state p).
Proof.
  unfold _handleDisconnect. unfold_M. cbn.
  destruct (isConnected (_state p) || negb (isPermanentlyDisconnected (_state p)) && negb r);
    [| reflexivity].
  destruct r; reflexivity.
Qed.

Lemma handleAccountsChanged_initialized (v : JsValue) (isEth : bool) (p : BaseProvider) :
  initialized (_state (after (_handleAccountsChanged v isEth) p)) = initialized (_state p).
Proof.
  destruct (iterate v) as [visited|] eqn:E.
  - destruct v as [| | b | n | s | elems | fs | nm]; try discriminate E.
    + pose proof (handleAccountsChanged_string s isEth p) as Hs.
      match type of Hs with _ = commitAccounts ?a ?b ?q =>
        destruct (commitAccounts_eq a b q) as (p' & Hrun & _ & _ & _ & _ & _ & Hi & _) end.
      rewrite Hrun in Hs. rewrite (after_eq _ _ _ _ Hs). exact Hi.
    + destruct (quiet_handleAccountsChanged elems isEth p) as (p' & Hrun & Hi).
      rewrite (after_eq _ _ _ _ Hrun). exact Hi.
  - rewrite (after_eq _ _ _ _ (handleAccountsChanged_not_iterable v isEth p E)). reflexivity.
Qed.

Lemma handleUnlockStateChanged_initialized (a u : JsValue) (p : BaseProvider) :
  initialized (_state (after (_handleUnlockStateChanged a u) p)) = initialized (_state p).
Proof.
  unfold _handleUnlockStateChanged.
  destruct u as [| | b | n | s | elems | fs | nm]; try reflexivity.
  unfold after, bind at 1, read at 1.
  destruct (negb (Bool.eqb b (isUnlocked (_state p)))); cbn [when]; [| reflexivity].
  unfold bind at 1, update at 1.
  apply (handleAccountsChanged_initialized _ false (set_state (set_isUnlocked b) p)).
Qed.

Lemma notify_initialized (n : Notification) (p : BaseProvider) :
  initialized (_state (after (notify validHex n) p)) = initialized (_state p).
Proof.
  destruct n as [c | r m | v | v e | a u]; cbn [notify].
  - apply (handleConnect_frame c p).
  - apply handleDisconnect_initialized.
  - apply (handleChainChanged_frame validHex v p).
  - apply handleAccountsChanged_initialized.
  - apply handleUnlockStateChanged_initialized.
Qed.

Lemma notifyAll_initialized (ns : list Notification) (p : BaseProvider) :
  initialized (_state (notifyAll validHex ns p)) = initialized (_state p).
Proof.
  revert p. induction ns as [| n ns IH]; intros p; [reflexivity |].
  unfold notifyAll in *. cbn [foldl]. rewrite IH. apply notify_initialized.
Qed.

Lemma bind_keeps (P : BaseProvider → Prop) (c1 c2 : M unit) :
  (∀ p, P p → P (after c1 p)) → (∀ p, P p → P (after c2 p)) →
  ∀ p, P p → P (after (c1 ;; c2) p).
Proof.
  intros H1 H2 p H. specialize (H1 p H). unfold after, bind in *.
  destruct (c1 p) as [[[]|e] p1]; cbn in *; [apply H2, H1 | exact H1].
Qed.

(** What each of the four handlers keeps, the handler calls of the
    initializer keep, whether or not one of them throws. *)
Lemma applySnapshot_keeps (P : BaseProvider → Prop) (a : JsValue) :
  (∀ c p, P p → P (after (_handleConnect c) p)) →
  (∀ v p, P p → P (after (_handleChainChanged validHex v) p)) →
  (∀ v u p, P p → P (after (_handleUnlockStateChanged v u) p)) →
  (∀ v e p, P p → P (after (_handleAccountsChanged v e) p)) →
  ∀ p, P p → P (after (applySnapshot validHex a) p).
Proof.
  intros H1 H2 H3 H4. unfold applySnapshot.
  destruct (truthy a); [| intros p H; exact H].
  apply bind_keeps; [apply H1 |].
  apply bind_keeps; [apply H2 |].
  apply bind_keeps; [apply H3 | apply H4].
Qed.

Lemma applySnapshot_initialized (a : JsValue) (p : BaseProvider) :
  initialized (_state (after (applySnapshot validHex a) p)) = initialized (_state p).
Proof.
  apply (applySnapshot_keeps (λ q, initialized (_state q) = initialized (_state p)));
    [| | | | reflexivity].
  - intros c q H. rewrite <- H. apply (handleConnect_frame c q).
  - intros v q H. rewrite <- H. apply (handleChainChanged_frame validHex v q).
  - intros v u q H. rewrite <- H. apply handleUnlockStateChanged_initialized.
  - intros v e q H. rewrite <- H. apply handleAccountsChanged_initialized.
Qed.

Lemma bind_outcome (c1 c2 : M unit) (p : BaseProvider) :
  fst (c1 p) = Returned tt → fst ((c1 ;; c2) p) = fst (c2 (after c1 p)).
Proof.
  unfold after, bind. destruct (c1 p) as [[[]|e] p1]; cbn; [reflexivity | discriminate].
Qed.

Lemma handleConnect_returns (c : JsValue) (p : BaseProvider) :
  fst (_handleConnect c p) = Returned tt.
Proof. rewrite handleConnect_eq. reflexivity. Qed.

(** The lock-state handler throws only where the accounts handler it calls
    does: on accounts that are truthy and cannot be iterated. *)
Lemma handleUnlockStateChanged_outcome (v u : JsValue) (p : BaseProvider) :
  fst (_handleUnlockStateChanged v u p) = Returned tt ∨
  (iterate v = None ∧
   fst (_handleUnlockStateChanged v u p) = Thrown (TypeError "accounts is not iterable")).
Proof.
  assert (E0 : (∃ q, _handleUnlockStateChanged v u p = (Returned tt, q)) ∨
               ∃ q, _handleUnlockStateChanged v u p
                    = _handleAccountsChanged (if truthy v then v else JArray []) false q).
  { unfold _handleUnlockStateChanged.
    destruct u as [| | b | n | s | elems | fs | nm]; try (left; eexists; reflexivity).
    unfold bind, read, update.
    destruct (negb (Bool.eqb b (isUnlocked (_state p)))); cbn [when].
    - right. exists (set_state (set_isUnlocked b) p). reflexivity.
    - left. exists p. reflexivity. }
  destruct E0 as [[q ->] | [q ->]]; [left; reflexivity |].
  destruct (truthy v) eqn:T.
  - destruct (iterate v) as [visited|] eqn:E.
    + left. pose proof (proj2 (handleAccountsChanged_returns_iff v false q)) as H.
      unfold returns in H. destruct (fst (_handleAccountsChanged v false q)) as [[]|e];
        [reflexivity |]. rewrite E in H. discriminate H. discriminate.
    + right. split; [reflexivity |].
      rewrite (handleAccountsChanged_not_iterable v false q E). reflexivity.
  - left. pose proof (proj2 (handleAccountsChanged_returns_iff (JArray []) false q)) as H.
    unfold returns in H. destruct (fst (_handleAccountsChanged (JArray []) false q)) as [[]|e];
      [reflexivity |]. discriminate H. discriminate.
Qed.

(** The handler calls of the initializer return exactly when the snapshot
    is falsy or its [accounts] can be iterated; otherwise they throw the
    error of the loop header. *)
Lemma applySnapshot_outcome (a : JsValue) (p : BaseProvider) :
  fst (applySnapshot validHex a p) =
  if truthy a then
    match iterate (getProperty a "accounts") with
    | Some _ => Returned tt
    | None => Thrown (TypeError "accounts is not iterable")
    end
  else Returned tt.
Proof.
  unfold applySnapshot. destruct (truthy a); [| reflexivity].
  rewrite bind_outcome by apply handleConnect_returns.
  rewrite bind_outcome by apply handleChainChanged_returns.
  set (q := after (_handleChainChanged validHex _) _). clearbody q.
  set (v := getProperty a "accounts"). set (u := getProperty a "isUnlocked").
  destruct (handleUnlockStateChanged_outcome v u q) as [Hu | [Hv Hu]].
  - rewrite bind_outcome by exact Hu.
    destruct (iterate v) as [visited|] eqn:E.
    + pose proof (proj2 (handleAccountsChanged_returns_iff v false
                           (after (_handleUnlockStateChanged v u) q))) as H.
      unfold returns in H.
      destruct (fst (_handleAccountsChanged v false _)) as [[]|e]; [reflexivity |].
      rewrite E in H. discriminate H. discriminate.
    + rewrite (handleAccountsChanged_not_iterable v false _ E). reflexivity.
  - rewrite Hv. unfold bind.
    destruct (_handleUnlockStateChanged v u q) as [[[]|e] q']; cbn in *; [discriminate Hu | exact Hu].
Qed.

(** When the first call returns or finds the flag set, the flag is set
    afterwards. *)
Lemma initializeState_sets_flag (a : JsValue) (p : BaseProvider) :
  truthy a = false ∨ iterate (getProperty a "accounts") ≠ None →
  initialized (_state (after (_initializeState validHex a) p)) = true.
Proof.
  intros Ha. destruct (initialized (_state p)) eqn:Hp.
  - rewrite (after_eq _ _ _ _ (initializeState_again a p Hp)). exact Hp.
  - unfold after. rewrite (initializeState_unfold a p Hp).
    pose proof (applySnapshot_outcome a p) as Ho.
    destruct (applySnapshot validHex a p) as [[[]|e] p1]; cbn in *; [reflexivity |].
    destruct Ha as [Ha | Ha]; [rewrite Ha in Ho; discriminate Ho |].
    destruct (truthy a); [| discriminate Ho].
    destruct (iterate (getProperty a "accounts")); [discriminate Ho | contradiction].
Qed.

(** The part of C5 the code does satisfy: when the first call is given no
    snapshot, or one whose [accounts] can be iterated, then whatever the
    instance was, whatever the second argument is, and whatever the handlers
    were called with in between, the second call of the initializer throws. *)
Lemma initializeState_twice_throws
    (a1 a2 : JsValue) (ns : list Notification) (p : BaseProvider) :
  truthy a1 = false ∨ iterate (getProperty a1 "accounts") ≠ None →
  fst (_initializeState validHex a2
         (notifyAll validHex ns (after (_initializeState validHex a1) p)))
  = Thrown (Error "Provider already initialized.").
Proof.
  intros Ha.
  rewrite initializeState_again; [reflexivity |].
  rewrite notifyAll_initialized. apply initializeState_sets_flag, Ha.
Qed.

(** The plain case: nothing happens between the two calls. *)
Example initializeState_twice_scenario1 :
  fst (_initializeState hexPrefixed JUndefined
         (after (_initializeState hexPrefixed scenario1) new_BaseProvider))
  = Thrown (Error "Provider already initialized.").
Proof. vm_compute. reflexivity. Qed.

(** When the handler calls return, so does the initializer. *)
Lemma initializeState_returns (a : JsValue) (p : BaseProvider) :
  initialized (_state p) = false →
  truthy a = false ∨ iterate (getProperty a "accounts") ≠ None →
  fst (_initializeState validHex a p) = Returned tt.
Proof.
  intros Hp Ha. rewrite (initializeState_unfold a p Hp).
  pose proof (applySnapshot_outcome a p) as Ho.
  destruct (applySnapshot validHex a p) as [[[]|e] p1]; cbn in *; [reflexivity |].
  destruct Ha as [Ha | Ha]; [rewrite Ha in Ho; discriminate Ho |].
  destruct (truthy a); [| discriminate Ho].
  destruct (iterate (getProperty a "accounts")); [discriminate Ho | contradiction].
Qed.

(** C5: the second call of the initializer does not always throw.  A first
    call with a snapshot whose [accounts] cannot be iterated (the field is
    missing, say) throws in the loop header of the accounts handler, after
    the other handlers ran and before the flag is set, so the instance stays
    uninitialized.  A second call without a snapshot, or with one whose
    [accounts] can be iterated, then returns and sets the flag; without a
    snapshot all it does is set the flag and emit the internal signal. *)
Theorem initializeState_second_call_returns (snapshot again : JsValue) (p : BaseProvider) :
  initialized (_state p) = false →
  truthy snapshot = true →
  iterate (getProperty snapshot "accounts") = None →
  truthy again = false ∨ iterate (getProperty again "accounts") ≠ None →
  let p1 := after (_initializeState validHex snapshot) p in
  fst (_initializeState validHex snapshot p) = Thrown (TypeError "accounts is not iterable") ∧
  initialized (_state p1) = false ∧
  fst (_initializeState validHex again p1) = Returned tt ∧
  initialized (_state (after (_initializeState validHex again) p1)) = true ∧
  (truthy again = false →
     _initializeState validHex again p1
     = (Returned tt, push_event Ev_initialized (set_state (set_initialized true) p1))).
Proof.
  intros Hp Ht Hv Ha p1.
  pose proof (initializeState_unfold snapshot p Hp) as E.
  pose proof (applySnapshot_outcome snapshot p) as Ho.
  pose proof (applySnapshot_initialized snapshot p) as Hi.
  rewrite Ht, Hv in Ho. unfold after in Hi.
  assert (E1 : _initializeState validHex snapshot p
               = (Thrown (TypeError "accounts is not iterable"), p1)).
  { subst p1. unfold after. destruct (applySnapshot validHex snapshot p) as [[[]|e] q];
      cbn in *; [discriminate Ho |]. rewrite E. cbn. congruence. }
  assert (Hi1 : initialized (_state p1) = false).
  { subst p1. unfold after. rewrite E.
    destruct (applySnapshot validHex snapshot p) as [[[]|e] q]; cbn in *;
      [discriminate Ho | congruence]. }
  split; [rewrite E1; reflexivity |]. split; [exact Hi1 |].
  split; [apply initializeState_returns; assumption |].
  split; [apply initializeState_sets_flag, Ha |].
  intros Hf. rewrite (initializeState_unfold again p1 Hi1).
  unfold applySnapshot. rewrite Hf. reflexivity.
Qed.


End Initializer.

Lemma initializeState_second_call_returns_witness :
  let snapshot := JObject [("chainId", JString "0x1"); ("isUnlocked", JBoolean true)] in
  let p1 := after (_initializeState hexPrefixed snapshot) new_BaseProvider in
  fst (_initializeState hexPrefixed snapshot new_BaseProvider)
    = Thrown (TypeError "accounts is not iterable") ∧
  initialized (_state p1) = false ∧
  fst (_initializeState hexPrefixed JUndefined p1) = Returned tt ∧
  emitted (after (_initializeState hexPrefixed JUndefined) p1)
    = [Ev_connect (JString "0x1"); Ev_initialized].
Proof.
  intros snapshot p1.
  destruct (initializeState_second_call_returns hexPrefixed snapshot JUndefined new_BaseProvider
              eq_refl eq_refl eq_refl (or_introl eq_refl)) as (Ht & Hi & Hr & _ & E).
  split; [exact Ht |]. split; [exact Hi |]. split; [exact Hr |].
  fold p1 in E. rewrite (after_eq _ _ _ _ (E eq_refl)). reflexivity.
Defined.


(** ** Validation in [request] *)

Lemma length_zero_empty (m : string) : (String.length m =? 0)%nat = true ↔ m = "".
Proof.
  destruct m; cbn; split; intros H; try reflexivity; discriminate.
Qed.

(** C9: [request] rejects with an invalid-request error, leaving the
    instance untouched, exactly when the argument is not a plain object, or
    its [method] is missing, not a string or empty, or its [params] is
    present but neither an array nor a non-null object; otherwise the pair
    [{ method, params }] read from the argument goes to the dispatcher, on
    the unchanged instance. *)
Theorem request_validation {T} (dispatch : RequestArguments → M T)
    (args : JsValue) (p : BaseProvider) :
  (invalidRequest args →
     ∃ m, request dispatch args p = (Thrown (InvalidRequest m args), p)) ∧
  (¬ invalidRequest args →
     ∃ m, getProperty args "method" = JString m ∧
          request dispatch args p =
          dispatch {| method := m; params := getProperty args "params" |} p).
Proof.
  unfold invalidRequest, notPlainObject, methodMissingOrEmpty, paramsMalformed.
  destruct args as [| | b | n | s | elems | fs | nm];
    try (split; [intros _; eexists; unfold request, throw; cbn;
                   try destruct b; try destruct (n =? 0)%Z; try destruct (String.eqb s "");
                   reflexivity
                | intros H; exfalso; apply H; left; intros fs; discriminate]).
  unfold request. cbn [truthy typeof JsType_eqb isArray negb orb].
  destruct (getProperty (JObject fs) "method") as [| | b | n | m | elems | fs' | nm] eqn:Em;
    try (split; [intros _; eexists; reflexivity
                | intros H; exfalso; apply H; right; left; intros m; discriminate]).
  destruct (String.length m =? 0)%nat eqn:El.
  { apply length_zero_empty in El. subst m. split.
    - intros _. eexists. reflexivity.
    - intros H. exfalso. apply H. right. left. intros m Hm. congruence. }
  assert (Hm : m ≠ "") by (intros ->; discriminate El).
  destruct (getProperty (JObject fs) "params") as [| | b | n | s | elems | fs' | nm] eqn:Ep;
    cbn [isUndefined isArray typeof JsType_eqb isNull negb andb orb].
  all: split;
    [ intros [H | [H | (H1 & H2 & H3)]];
      [ exfalso; exact (H fs eq_refl)
      | exfalso; exact (Hm (H m eq_refl))
      | try (exfalso; congruence); try (eexists; reflexivity) ]
    | intros H; try (exists m; split; reflexivity) ].
  all: try (exfalso; apply H; right; right;
            split; [discriminate | split; intros ?; discriminate]).
Qed.

Lemma request_validation_witness :
  request (λ a, ret (method a)) (JObject [("method", JString "eth_chainId")]) new_BaseProvider
    = (Returned "eth_chainId", new_BaseProvider) ∧
  ∃ m, request (λ a, ret (method a)) (JArray []) new_BaseProvider
       = (Thrown (InvalidRequest m (JArray [])), new_BaseProvider).
Proof.
  split.
  - destruct (proj2 (request_validation (λ a, ret (method a))
                       (JObject [("method", JString "eth_chainId")]) new_BaseProvider))
      as (m & Hm & Hrun).
    + intros [H | [H | (H & _)]].
      * exact (H _ eq_refl).
      * discriminate (H "eth_chainId" eq_refl).
      * apply H. reflexivity.
    + rewrite Hrun. injection Hm as <-. reflexivity.
  - apply (proj1 (request_validation (λ a, ret (method a)) (JArray []) new_BaseProvider)).
    left. intros fs. discriminate.
Defined.

(** ** The indirection layer *)

Lemma setTarget_object (d : Reference) (l : Layer) :
  instanceofObject d = true →
  setTarget d l =
  (Returned tt,
   {| mutableTarget := d; mutableHandler := mutableHandler l;
      proxy := proxy l; proxyTarget := proxyTarget l |}).
Proof. intros H. unfold setTarget. rewrite H. reflexivity. Qed.

Lemma setTarget_frame (d : Reference) (l : Layer) :
  mutableHandler (snd (setTarget d l)) = mutableHandler l ∧
  proxy (snd (setTarget d l)) = proxy l ∧
  proxyTarget (snd (setTarget d l)) = proxyTarget l.
Proof. unfold setTarget. destruct (instanceofObject d); cbn; auto. Qed.

Lemma runLayer_frame (steps : list LayerStep) (l : Layer) :
  mutableHandler (snd (runLayer steps l)) = mutableHandler l ∧
  proxy (snd (runLayer steps l)) = proxy l ∧
  proxyTarget (snd (runLayer steps l)) = proxyTarget l.
Proof.
  revert l. induction steps as [| [property args | d] steps IH]; intros l; cbn.
  - auto.
  - specialize (IH l). destruct (runLayer steps l) as [calls l']. exact IH.
  - destruct (IH (snd (setTarget d l))) as (H1 & H2 & H3).
    destruct (setTarget_frame d l) as (F1 & F2 & F3).
    rewrite H1, H2, H3. auto.
Qed.

(** Operations do not move the delegate, so the layer a run leaves is the
    one its assignments produce. *)
Lemma runLayer_app (a b : list LayerStep) (l : Layer) :
  runLayer (a ++ b) l =
  (fst (runLayer a l) ++ fst (runLayer b (snd (runLayer a l))),
   snd (runLayer b (snd (runLayer a l)))).
Proof.
  revert l. induction a as [| [property args | d] a IH]; intros l; cbn.
  - destruct (runLayer b l); reflexivity.
  - rewrite IH. destruct (runLayer a l) as [calls l']. cbn.
    destruct (runLayer b l'); reflexivity.
  - apply IH.
Qed.

Lemma runLayer_operations (ops : list (string * list Reference)) (l : Layer) :
  runLayer (map (λ op, Operation op.1 op.2) ops) l =
  (map (λ op, trap op.1 op.2 l) ops, l).
Proof.
  induction ops as [| [property args] ops IH]; cbn; [reflexivity |].
  rewrite IH. reflexivity.
Qed.

(** C7: [setTarget] accepts every object-like delegate [d]; in any run, the
    operations that follow the assignment are each applied to [d], the calls
    forwarded before it are the ones the run had produced without it (they
    stay with the earlier delegate), and the proxy handed out is the same
    object throughout. *)
Theorem assigned_delegate_serves_later_operations
    (d : Reference) (l : Layer) (before : list LayerStep)
    (ops : list (string * list Reference)) :
  instanceofObject d = true →
  let steps := before ++ Assign d :: map (λ op, Operation op.1 op.2) ops in
  fst (setTarget d (snd (runLayer before l))) = Returned tt ∧
  mutableTarget (snd (setTarget d (snd (runLayer before l)))) = d ∧
  fst (runLayer steps l) =
    fst (runLayer before l) ++
    map (λ op, {| fw_handler := mutableHandler l; fw_trap := op.1;
                  fw_target := d; fw_rest := tail op.2 |}) ops ∧
  mutableTarget (snd (runLayer steps l)) = d ∧
  proxy (snd (runLayer steps l)) = proxy l.
Proof.
  intros Hd steps. subst steps.
  set (l1 := snd (runLayer before l)).
  rewrite (setTarget_object d l1 Hd). cbn [fst snd mutableTarget].
  split; [reflexivity |]. split; [reflexivity |].
  rewrite runLayer_app. fold l1. cbn [runLayer fst snd].
  rewrite (setTarget_object d l1 Hd). cbn [snd].
  rewrite runLayer_operations. cbn [fst snd mutableTarget proxy].
  destruct (runLayer_frame before l) as (Hh & Hp & _). fold l1 in Hh, Hp.
  split; [| split; [reflexivity | exact Hp]].
  f_equal. apply map_ext. intros [property args]. unfold trap. cbn.
  rewrite Hh. reflexivity.
Qed.

Lemma assigned_delegate_serves_later_operations_witness :
  fst (runLayer [Operation "get" [Plain (JObject []); Plain (JString "request"); TheProxy];
                 Assign TheProvider;
                 Operation "get" [Plain (JObject []); Plain (JString "request"); TheProxy]]
         mutableProxyFactory)
  = [ {| fw_handler := Reflect; fw_trap := "get"; fw_target := Plain (JObject []);
         fw_rest := [Plain (JString "request"); TheProxy] |};
      {| fw_handler := Reflect; fw_trap := "get"; fw_target := TheProvider;
         fw_rest := [Plain (JString "request"); TheProxy] |} ].
Proof.
  exact (proj1 (proj2 (proj2
    (assigned_delegate_serves_later_operations TheProvider mutableProxyFactory
       [Operation "get" [Plain (JObject []); Plain (JString "request"); TheProxy]]
       [("get", [Plain (JObject []); Plain (JString "request"); TheProxy])]
       eq_refl)))).
Defined.

(** A value that is not object-like is refused and the delegate stays. *)
Lemma setTarget_primitive (v : Reference) (l : Layer) :
  instanceofObject v = false →
  setTarget v l = (Thrown (Error "Target is not an object"), l).
Proof. intros H. unfold setTarget. rewrite H. reflexivity. Qed.

(** ** The facade *)

Lemma facadeDelete_keeps_target (k : string) (o : JsObject) :
  snd (facadeDelete k o) = o.
Proof.
  unfold facadeDelete, proxyDelete. cbn.
  destruct (own o !! k) as [d|]; [| reflexivity].
  destruct (prop_configurable d); cbn; [| reflexivity].
  destruct (extensible o); reflexivity.
Qed.

(** C10: for every key, [delete] on the object [initializeProvider] returns
    answers [true] and removes nothing from the provider behind it: every
    property reads as before. *)
Theorem facade_delete_is_silent (k : string) (o : JsObject) :
  assignedOnly o →
  facadeDelete k o = (Normal (JBoolean true), o) ∧
  (∀ k', own (snd (facadeDelete k o)) !! k' = own o !! k') ∧
  (∀ k', proxyGet facadeHandler k' (snd (facadeDelete k o)) = proxyGet facadeHandler k' o).
Proof.
  intros [Hext Hconf].
  assert (E : facadeDelete k o = (Normal (JBoolean true), o)).
  { unfold facadeDelete, proxyDelete. cbn.
    destruct (own o !! k) as [d|] eqn:Hk; [| reflexivity].
    rewrite (Hconf k d Hk), Hext. reflexivity. }
  rewrite E. cbn. auto.
Qed.

(** Without the trap the same [delete] removes the property. *)
Lemma ordinaryDelete_removes (k : string) (o : JsObject) (d : Property) :
  own o !! k = Some d → prop_configurable d = true →
  own (snd (ordinaryDelete k o)) !! k = None.
Proof.
  intros Hk Hc. unfold ordinaryDelete. rewrite Hk, Hc. cbn.
  apply lookup_delete_eq.
Qed.

Lemma facade_delete_is_silent_witness :
  facadeDelete "chainId" constructedProvider = (Normal (JBoolean true), constructedProvider).
Proof.
  refine (proj1 (facade_delete_is_silent "chainId" constructedProvider _)).
  split; [reflexivity |].
  intros k d H. unfold constructedProvider in H. cbn [own] in H.
  repeat (apply lookup_insert_Some in H as [[_ <-] | [_ H]]; [reflexivity |]).
  rewrite lookup_empty in H. discriminate H.
Defined.

(** ** The escape hatch of the dispatcher *)

(** When the global slot holds the proxy, a deferred call retargets the
    layer to the recorded candidate and reaches that candidate only: the
    engine is not used, no callback is wrapped, the instance is untouched. *)
Lemma rpcRequest_defers_through_proxy
    (pg : Page) (l : Layer) (name : string) (isMM : bool) (req : JsonRpcRequest) :
  _originalMetaMask (provider pg) = Some (External name isMM) →
  _setWaymontTarget (provider pg) = Some Layer_setTarget →
  layer pg = Some l →
  window_ethereum pg = TheProxy →
  rpc_method req = "eth_requestAccounts" →
  _rpcRequest (Single req) false pg =
  (Returned (Ethereum_request (External name isMM)
               {| method := "eth_requestAccounts"; params := rpc_params req |}),
   set_layer (Some (snd (setTarget (External name isMM) l))) pg).
Proof.
  intros Ho Hs Hl Hw Hm. unfold _rpcRequest.
  rewrite Ho, Hs, Hl. cbn [methodIs]. rewrite Hm. cbn.
  rewrite Hw. cbn. rewrite Hm. reflexivity.
Qed.

Lemma rpcRequest_defers_through_proxy_witness :
  fst (_rpcRequest requestAccounts false earlyDetection)
  = Returned (Ethereum_request metaMask
                {| method := "eth_requestAccounts"; params := JUndefined |}).
Proof.
  pose proof (rpcRequest_defers_through_proxy earlyDetection
                {| mutableTarget := TheProvider; mutableHandler := Reflect;
                   proxy := TheProxy; proxyTarget := Plain (JObject []) |}
                "MetaMask" true
                {| rpc_id := JUndefined; rpc_jsonrpc := JUndefined;
                   rpc_method := "eth_requestAccounts"; rpc_params := JUndefined |}
                eq_refl eq_refl eq_refl eq_refl eq_refl) as H.
  unfold requestAccounts. rewrite H. reflexivity.
Defined.

(** Choosing this provider, or having no recorded candidate, keeps the call
    in the provider's own pipeline. *)
Lemma rpcRequest_own_pipeline (pg : Page) (payload : Payload) (choseThis : bool) :
  _originalMetaMask (provider pg) = None ∨ choseThis = true →
  _rpcRequest payload choseThis pg = (Returned (viaEngine payload), pg).
Proof.
  intros [H | H]; unfold _rpcRequest.
  - rewrite H. reflexivity.
  - rewrite H. destruct (_originalMetaMask (provider pg)); [| reflexivity].
    rewrite andb_false_r. reflexivity.
Qed.

(** C6: the claim holds when the slot holds the proxy (lemma above), but the
    installer can record the candidate and still leave the provider itself
    in the slot: when the candidate appears just before the tenth poll, the
    callback installs the proxy, falls through to [count >= 10] and
    overwrites the slot.  The deferred call then retargets the layer and is
    sent to this provider's own [request], not to the candidate. *)
Theorem late_detection_defers_to_itself :
  _originalMetaMask (provider lateDetection) = Some metaMask ∧
  _setWaymontTarget (provider lateDetection) = Some Layer_setTarget ∧
  window_ethereum lateDetection = TheProvider ∧
  fst (_rpcRequest requestAccounts false lateDetection)
    = Returned (Ethereum_request TheProvider
                  {| method := "eth_requestAccounts"; params := JUndefined |}) ∧
  (mutableTarget <$> layer (snd (_rpcRequest requestAccounts false lateDetection)))
    = Some metaMask ∧
  fst (_rpcRequest requestAccounts false earlyDetection)
    = Returned (Ethereum_request metaMask
                  {| method := "eth_requestAccounts"; params := JUndefined |}).
Proof. vm_compute. auto 10. Qed.

(** * Further properties of the state machine *)

(** ** Connect, disconnect, chain changes *)

Lemma handleDisconnect_eq (r : bool) (m : option string) (p : BaseProvider) :
  _handleDisconnect r m p =
  (Returned tt,
   if isConnected (_state p) || negb (isPermanentlyDisconnected (_state p)) && negb r then
     if r then
       push_event (Ev_disconnect (EthereumRpcError 1013 (messageOr m Msg_errors_disconnected)))
         (push_log (Log_debug_error (EthereumRpcError 1013 (messageOr m Msg_errors_disconnected)))
            (set_state (set_isConnected false) p))
     else
       push_event (Ev_disconnect (EthereumRpcError 1011 (messageOr m Msg_errors_permanentlyDisconnected)))
         (set_state (set_isPermanentlyDisconnected true)
            (set_state (set_isUnlocked false)
               (set_selectedAddress None
                  (set_state (set_accounts None)
                     (set_chainId None
                        (push_log (Log_error_error (EthereumRpcError 1011 (messageOr m Msg_errors_permanentlyDisconnected)))
                           (set_state (set_isConnected false) p)))))))
   else p).
Proof.
  unfold _handleDisconnect. unfold_M. cbn.
  destruct (isConnected (_state p) || negb (isPermanentlyDisconnected (_state p)) && negb r);
    [| reflexivity].
  destruct r; reflexivity.
Qed.

(** X1: [_handleConnect] is idempotent: a second call, with whatever chain
    id, returns the instance of the first unchanged, so it emits and logs
    nothing. *)
Theorem handleConnect_idempotent (c1 c2 : JsValue) (p : BaseProvider) :
  _handleConnect c2 (after (_handleConnect c1) p) = (Returned tt, after (_handleConnect c1) p) ∧
  emits (_handleConnect c2) (after (_handleConnect c1) p) = [].
Proof.
  assert (E : _handleConnect c2 (after (_handleConnect c1) p)
              = (Returned tt, after (_handleConnect c1) p)).
  { rewrite handleConnect_eq. rewrite handleConnect_connected. reflexivity. }
  split; [exact E |].
  apply (emits_eq _ _ _ _ _ E). rewrite app_nil_r. reflexivity.
Qed.

(** X2: a recoverable disconnect of a connected instance sets
    [isConnected] to false and emits one [disconnect] carrying code 1013; the
    accounts, the chain id, the selected address and the other flags stay,
    and a later connect call connects again. *)
Theorem recoverable_disconnect_keeps_state
    (m : option string) (c : JsValue) (p : BaseProvider) :
  isConnected (_state p) = true →
  let p' := after (_handleDisconnect true m) p in
  isConnected (_state p') = false ∧
  emits (_handleDisconnect true m) p
    = [Ev_disconnect (EthereumRpcError 1013 (messageOr m Msg_errors_disconnected))] ∧
  accounts (_state p') = accounts (_state p) ∧
  chainId p' = chainId p ∧
  selectedAddress p' = selectedAddress p ∧
  isUnlocked (_state p') = isUnlocked (_state p) ∧
  isPermanentlyDisconnected (_state p') = isPermanentlyDisconnected (_state p) ∧
  emits (_handleConnect c) p' = [Ev_connect c].
Proof.
  intros Hc p'. subst p'.
  pose proof (handleDisconnect_eq true m p) as E. rewrite Hc in E. cbn [orb] in E.
  rewrite (after_eq _ _ _ _ E).
  split; [reflexivity |].
  split; [apply (emits_eq _ _ _ _ _ E); reflexivity |].
  do 5 (split; [reflexivity |]).
  apply (emits_eq _ _ _ _ _ (handleConnect_eq c _)). reflexivity.
Qed.

Lemma recoverable_disconnect_keeps_state_witness :
  accounts (_state (after (_handleDisconnect true None)
                      (after (_initializeState hexPrefixed scenario1) new_BaseProvider)))
  = Some ["0xabc"].
Proof.
  pose proof (recoverable_disconnect_keeps_state None (JString "0x1")
                (after (_initializeState hexPrefixed scenario1) new_BaseProvider)
                eq_refl) as H.
  cbv zeta in H. destruct H as (_ & _ & Ha & _).
  rewrite Ha. reflexivity.
Defined.

(** X3: [_handleDisconnect] is idempotent for a given [isRecoverable]: a
    second call with the same flag, whatever the messages, changes nothing
    and emits nothing. *)
Theorem handleDisconnect_idempotent (r : bool) (m1 m2 : option string) (p : BaseProvider) :
  _handleDisconnect r m2 (after (_handleDisconnect r m1) p)
    = (Returned tt, after (_handleDisconnect r m1) p) ∧
  emits (_handleDisconnect r m2) (after (_handleDisconnect r m1) p) = [].
Proof.
  assert (E : _handleDisconnect r m2 (after (_handleDisconnect r m1) p)
              = (Returned tt, after (_handleDisconnect r m1) p)).
  { rewrite (after_eq _ _ _ _ (handleDisconnect_eq r m1 p)).
    rewrite handleDisconnect_eq.
    destruct (isConnected (_state p) || negb (isPermanentlyDisconnected (_state p)) && negb r) eqn:G.
    - destruct r; cbn; rewrite ?andb_false_r; reflexivity.
    - rewrite G. reflexivity. }
  split; [exact E |].
  apply (emits_eq _ _ _ _ _ E). rewrite app_nil_r. reflexivity.
Qed.

(** X4: a recoverable disconnect does not close the way to a permanent
    one: after it, a non-recoverable disconnect is still processed (unless
    the instance was permanently disconnected before) and emits a second
    [disconnect], with code 1011; the reverse order emits only the first. *)
Theorem disconnect_escalates (m1 m2 : option string) (p : BaseProvider) :
  isPermanentlyDisconnected (_state p) = false →
  emits (_handleDisconnect false m2) (after (_handleDisconnect true m1) p)
    = [Ev_disconnect (EthereumRpcError 1011 (messageOr m2 Msg_errors_permanentlyDisconnected))] ∧
  emits (_handleDisconnect true m2) (after (_handleDisconnect false m1) p) = [].
Proof.
  intros Hp. split.
  - pose proof (handleDisconnect_eq true m1 p) as E1.
    rewrite andb_false_r, orb_false_r in E1.
    rewrite (after_eq _ _ _ _ E1). clear E1.
    eapply emits_eq; [apply handleDisconnect_eq |].
    destruct (isConnected (_state p)) eqn:C; cbn; rewrite ?C, Hp; reflexivity.
  - pose proof (handleDisconnect_eq false m1 p) as E1.
    rewrite Hp in E1. cbn [negb andb] in E1. rewrite orb_true_r in E1.
    rewrite (after_eq _ _ _ _ E1). clear E1.
    eapply emits_eq; [apply handleDisconnect_eq |].
    cbn. rewrite app_nil_r. reflexivity.
Qed.

Lemma disconnect_escalates_witness :
  emits (_handleDisconnect false None) (after (_handleDisconnect true None) new_BaseProvider)
  = [Ev_disconnect (EthereumRpcError 1011 Msg_errors_permanentlyDisconnected)].
Proof. exact (proj1 (disconnect_escalates None None new_BaseProvider eq_refl)). Defined.

Section ChainEvents.
Variable validHex : string → bool.

(** X5: on a valid chain id the chain-changed handler emits [connect] if
    the instance was not connected, then [chainChanged] if the id differs
    from the stored one and the instance is initialized, and nothing else;
    the id is stored either way. *)
Theorem handleChainChanged_events (c : string) (p : BaseProvider) :
  validHex c = true →
  emits (_handleChainChanged validHex (JString c)) p
    = (if isConnected (_state p) then [] else [Ev_connect (JString c)]) ++
      (if negb (bool_decide (Some c = chainId p)) && initialized (_state p)
       then [Ev_chainChanged c] else []) ∧
  chainId (after (_handleChainChanged validHex (JString c)) p) = Some c.
Proof.
  intros Hc.
  assert (E : isValidChainId validHex (JString c) = Some c) by (cbn; rewrite Hc; reflexivity).
  split; [| apply (handleChainChanged_revives validHex c p Hc)].
  eapply emits_eq; [apply (handleChainChanged_valid validHex _ _ p E) |].
  cbv zeta. rewrite (after_eq _ _ _ _ (handleConnect_eq (JString c) p)).
  destruct (isConnected (_state p)); cbn;
    destruct (bool_decide (Some c = chainId p)); cbn;
    destruct (initialized (_state p)); cbn; rewrite ?app_nil_r, <- ?app_assoc; reflexivity.
Qed.

(** X6: the chain-changed handler is idempotent on a valid chain id: the
    second call with the same id returns the instance unchanged. *)
Theorem handleChainChanged_idempotent (c : string) (p : BaseProvider) :
  validHex c = true →
  _handleChainChanged validHex (JString c) (after (_handleChainChanged validHex (JString c)) p)
  = (Returned tt, after (_handleChainChanged validHex (JString c)) p).
Proof.
  intros Hc.
  assert (E : isValidChainId validHex (JString c) = Some c) by (cbn; rewrite Hc; reflexivity).
  destruct (handleChainChanged_revives validHex c p Hc) as [Hk Hi].
  set (p' := after (_handleChainChanged validHex (JString c)) p) in *.
  rewrite (handleChainChanged_valid validHex _ _ p' E). cbv zeta.
  rewrite (after_eq _ _ _ _ (handleConnect_eq (JString c) p')), Hk, Hi.
  rewrite bool_decide_eq_true_2 by reflexivity. reflexivity.
Qed.

End ChainEvents.

Lemma handleChainChanged_events_witness :
  emits (_handleChainChanged hexPrefixed (JString "0x5"))
    (after (_initializeState hexPrefixed scenario1) new_BaseProvider)
  = [Ev_chainChanged "0x5"].
Proof.
  rewrite (proj1 (handleChainChanged_events hexPrefixed "0x5"
                    (after (_initializeState hexPrefixed scenario1) new_BaseProvider)
                    eq_refl)).
  reflexivity.
Defined.

Lemma handleChainChanged_idempotent_witness :
  emitted (after (_handleChainChanged hexPrefixed (JString "0x5"))
             (after (_handleChainChanged hexPrefixed (JString "0x5")) new_BaseProvider))
  = [Ev_connect (JString "0x5")].
Proof.
  rewrite (after_eq _ _ _ _ (handleChainChanged_idempotent hexPrefixed "0x5" new_BaseProvider eq_refl)).
  reflexivity.
Defined.

(** ** Accounts, lock state and the callback wrapper *)

Lemma strings_are_strings (l : list string) : forallb isString (map JString l) = true.
Proof. induction l as [| a l IH]; cbn; [reflexivity | exact IH]. Qed.

Lemma asStrings_ofStrings (l : list string) : asStrings (map JString l) = l.
Proof. induction l as [| a l IH]; cbn; [reflexivity |]. unfold asStrings in IH. rewrite IH. reflexivity. Qed.

Lemma sanitized_ofStrings (l : list string) : sanitized (ofStrings l) = l.
Proof. unfold sanitized, ofStrings. rewrite strings_are_strings. apply asStrings_ofStrings. Qed.

Lemma afterSanitizing_strings (l : list string) (p : BaseProvider) :
  afterSanitizing (map JString l) p = p.
Proof. unfold afterSanitizing. rewrite strings_are_strings. reflexivity. Qed.

Lemma commitAccounts_same (s : list string) (isEth : bool) (p : BaseProvider) :
  accounts (_state p) = Some s → commitAccounts s isEth p = (Returned tt, p).
Proof.
  intros H. unfold commitAccounts. unfold_M.
  rewrite (proj2 (dequal_true _ _) H). reflexivity.
Qed.

Lemma commitAccounts_differs (s : list string) (isEth : bool) (p : BaseProvider) :
  dequal (accounts (_state p)) s = false →
  commitAccounts s isEth p =
  (Returned tt,
   let p1 := if isEth && bool_decide (accounts (_state p) ≠ None)
             then push_log (Log_error (Literal "MetaMask: 'eth_accounts' unexpectedly updated accounts. Please report this bug.") (Some (ofStrings s))) p
             else p in
   let p2 := set_state (set_accounts (Some s)) p1 in
   let p3 := if differsFromFirst (selectedAddress p) s
             then set_selectedAddress (firstOrNull s) p2 else p2 in
   if initialized (_state p) then push_event (Ev_accountsChanged s) p3 else p3).
Proof.
  intros D. unfold commitAccounts. unfold_M. rewrite D. cbn.
  destruct (isEth && bool_decide (accounts (_state p) ≠ None)); cbn;
    destruct (differsFromFirst (selectedAddress p) s); cbn;
    destruct (initialized (_state p)); reflexivity.
Qed.

Lemma handleAccountsChanged_strings (l : list string) (isEth : bool) (p : BaseProvider) :
  _handleAccountsChanged (ofStrings l) isEth p = commitAccounts l isEth p.
Proof.
  unfold ofStrings. rewrite handleAccountsChanged_array.
  fold (ofStrings l). rewrite sanitized_ofStrings, afterSanitizing_strings. reflexivity.
Qed.

Lemma runCallback_strings (l : list string) (isEth : bool) (p : BaseProvider) :
  runCallback (AccountsCallback isEth) (ofStrings l) p = commitAccounts l isEth p.
Proof. unfold runCallback. apply handleAccountsChanged_strings. Qed.

Lemma not_all_strings (l : list JsValue) (v : JsValue) :
  v ∈ l → isString v = false → forallb isString l = false.
Proof.
  intros Hin Hv. induction Hin as [v l | v w l Hin IH]; cbn.
  - rewrite Hv. reflexivity.
  - rewrite (IH Hv). apply andb_false_r.
Qed.

(** X7: one element that is not a string discards the whole array: the
    handler returns, logs the array, and stores the empty list, not the
    strings that were in it. *)
Theorem one_bad_account_empties_the_list
    (l : list JsValue) (v : JsValue) (isEth : bool) (p : BaseProvider) :
  v ∈ l → isString v = false →
  let p' := after (_handleAccountsChanged (JArray l) isEth) p in
  returns (_handleAccountsChanged (JArray l) isEth) p = true ∧
  accounts (_state p') = Some [] ∧
  Log_error (Literal "MetaMask: Received non-string account. Please report this bug.")
            (Some (JArray l)) ∈ _log p'.
Proof.
  intros Hin Hv p'. subst p'.
  pose proof (not_all_strings l v Hin Hv) as Hf.
  pose proof (handleAccountsChanged_array l isEth p) as E.
  unfold sanitized, afterSanitizing in E. rewrite Hf in E.
  set (q := push_log _ p) in E.
  unfold returns. 
  destruct (dequal (accounts (_state q)) []) eqn:D.
  - apply dequal_true in D. rewrite (commitAccounts_same [] isEth q D) in E.
    rewrite (after_eq _ _ _ _ E), E. cbn [fst].
    split; [reflexivity |]. split; [exact D |].
    subst q. cbn. apply elem_of_app. right. apply list_elem_of_singleton. reflexivity.
  - rewrite (commitAccounts_differs [] isEth q D) in E.
    rewrite (after_eq _ _ _ _ E), E. cbn [fst]. cbv zeta.
    split; [reflexivity |].
    destruct (isEth && bool_decide (accounts (_state q) ≠ None));
      destruct (initialized (_state q)); cbn;
      (split; [reflexivity |]);
      rewrite ?elem_of_app, ?list_elem_of_singleton; auto.
Qed.

Lemma one_bad_account_empties_the_list_witness :
  accounts (_state (after (_handleAccountsChanged (JArray [JString "0xabc"; JNumber 7]) false)
                      new_BaseProvider)) = Some [].
Proof.
  refine (proj1 (proj2 (one_bad_account_empties_the_list
            [JString "0xabc"; JNumber 7] (JNumber 7) false new_BaseProvider _ eq_refl))).
  apply list_elem_of_further, list_elem_of_here.
Defined.

(** X8: the accounts-changed handler is idempotent on an array of strings:
    the second call with the same array returns the instance of the first
    unchanged, whichever of the two account methods either call came from. *)
Theorem handleAccountsChanged_idempotent (l : list string) (e1 e2 : bool) (p : BaseProvider) :
  _handleAccountsChanged (ofStrings l) e2 (after (_handleAccountsChanged (ofStrings l) e1) p)
  = (Returned tt, after (_handleAccountsChanged (ofStrings l) e1) p).
Proof.
  destruct (handleAccountsChanged_array_spec (map JString l) e1 p) as (p' & Hrun & Ha & _).
  cbv zeta in Ha. fold (ofStrings l) in *. rewrite sanitized_ofStrings in Ha.
  rewrite (after_eq _ _ _ _ Hrun).
  rewrite handleAccountsChanged_strings.
  apply commitAccounts_same. exact Ha.
Qed.

(** X9: reading back what was pushed is silent: when the response of
    either account method carries exactly the stored list, the wrapped
    callback leaves the instance untouched: no event, no log entry. *)
Theorem callback_with_stored_accounts_is_silent
    (l : list string) (isEth : bool) (p : BaseProvider) :
  accounts (_state p) = Some l →
  runCallback (AccountsCallback isEth) (ofStrings l) p = (Returned tt, p).
Proof.
  intros H. rewrite runCallback_strings.
  apply commitAccounts_same. exact H.
Qed.

Lemma callback_with_stored_accounts_is_silent_witness :
  runCallback (AccountsCallback true) (ofStrings ["0xabc"])
    (after (_initializeState hexPrefixed scenario1) new_BaseProvider)
  = (Returned tt, after (_initializeState hexPrefixed scenario1) new_BaseProvider).
Proof.
  exact (callback_with_stored_accounts_is_silent ["0xabc"] true
           (after (_initializeState hexPrefixed scenario1) new_BaseProvider) eq_refl).
Defined.

(** X10: when the response carries a list other than the stored one, the
    list is stored either way, but only the callback of [eth_accounts] logs
    the anomaly; the one of [eth_requestAccounts] logs nothing. *)
Theorem callback_with_other_accounts (l l' : list string) (p : BaseProvider) :
  accounts (_state p) = Some l → l' ≠ l →
  let passive := after (runCallback (AccountsCallback true) (ofStrings l')) p in
  let active := after (runCallback (AccountsCallback false) (ofStrings l')) p in
  accounts (_state passive) = Some l' ∧
  accounts (_state active) = Some l' ∧
  _log passive = _log p ++
    [Log_error (Literal "MetaMask: 'eth_accounts' unexpectedly updated accounts. Please report this bug.")
               (Some (ofStrings l'))] ∧
  _log active = _log p.
Proof.
  intros H Hne passive active. subst passive active.
  assert (D : dequal (accounts (_state p)) l' = false).
  { destruct (dequal (accounts (_state p)) l') eqn:D; [| reflexivity].
    apply dequal_true in D. congruence. }
  pose proof (λ e, runCallback_strings l' e p) as R.
  rewrite (after_eq _ _ _ _ (eq_trans (R true) (commitAccounts_differs l' true p D))).
  rewrite (after_eq _ _ _ _ (eq_trans (R false) (commitAccounts_differs l' false p D))).
  cbv zeta. rewrite H. cbn [andb].
  rewrite bool_decide_eq_true_2 by discriminate.
  destruct (differsFromFirst (selectedAddress p) l'); destruct (initialized (_state p));
    cbn; auto.
Qed.

Lemma callback_with_other_accounts_witness :
  accounts (_state (after (runCallback (AccountsCallback true) (ofStrings []))
                      (after (_initializeState hexPrefixed scenario1) new_BaseProvider)))
  = Some [].
Proof.
  refine (proj1 (callback_with_other_accounts ["0xabc"] []
            (after (_initializeState hexPrefixed scenario1) new_BaseProvider) eq_refl _)).
  discriminate.
Defined.

(** X11: a response without a result counts as the empty list: on an
    instance that holds accounts, the wrapped callback given a falsy result
    stores the empty list, clears [selectedAddress], and emits
    [accountsChanged([])] if the instance is initialized. *)
Theorem callback_without_result_clears_accounts
    (result : JsValue) (isEth : bool) (l : list string) (p : BaseProvider) :
  truthy result = false → accounts (_state p) = Some l → l ≠ [] →
  let p' := after (runCallback (AccountsCallback isEth) result) p in
  accounts (_state p') = Some [] ∧
  selectedAddress p' = None ∧
  emits (runCallback (AccountsCallback isEth) result) p
    = (if initialized (_state p) then [Ev_accountsChanged []] else []).
Proof.
  intros Hr Ha Hne p'. subst p'.
  assert (D : dequal (accounts (_state p)) [] = false).
  { destruct (dequal (accounts (_state p)) []) eqn:D; [| reflexivity].
    apply dequal_true in D. congruence. }
  assert (R : runCallback (AccountsCallback isEth) result p = commitAccounts [] isEth p).
  { unfold runCallback. rewrite Hr. rewrite handleAccountsChanged_array. reflexivity. }
  pose proof (eq_trans R (commitAccounts_differs [] isEth p D)) as E.
  rewrite (after_eq _ _ _ _ E). cbv zeta. cbn [differsFromFirst head firstOrNull].
  split; [| split].
  - destruct (isEth && _); destruct (initialized (_state p)); reflexivity.
  - destruct (isEth && _); destruct (initialized (_state p)); reflexivity.
  - apply (emits_eq _ _ _ _ _ E). cbv zeta. cbn [differsFromFirst head firstOrNull].
    destruct (isEth && _); destruct (initialized (_state p)); cbn;
      rewrite ?app_nil_r; reflexivity.
Qed.

Lemma callback_without_result_clears_accounts_witness :
  emits (runCallback (AccountsCallback false) JUndefined)
    (after (_initializeState hexPrefixed scenario1) new_BaseProvider)
  = [Ev_accountsChanged []].
Proof.
  refine (proj2 (proj2 (callback_without_result_clears_accounts JUndefined false ["0xabc"]
            (after (_initializeState hexPrefixed scenario1) new_BaseProvider)
            eq_refl eq_refl _))).
  discriminate.
Defined.

Lemma handleUnlockStateChanged_changed (a : JsValue) (b : bool) (p : BaseProvider) :
  isUnlocked (_state p) = negb b →
  _handleUnlockStateChanged a (JBoolean b) p =
  _handleAccountsChanged (if truthy a then a else JArray []) false
    (set_state (set_isUnlocked b) p).
Proof.
  intros H. unfold _handleUnlockStateChanged. unfold bind at 1, read at 1.
  rewrite H. destruct b; reflexivity.
Qed.

(** X12: a change of the lock state stores the new flag and feeds the
    accompanying accounts, or the empty list when there are none, to the
    accounts-changed handler: the sanitized list is stored, and
    [accountsChanged] is emitted under that handler's conditions.  Locking
    without accounts therefore empties the list. *)
Theorem lock_state_change_updates_accounts
    (a : JsValue) (l : list JsValue) (b : bool) (p : BaseProvider) :
  (if truthy a then a else JArray []) = JArray l →
  isUnlocked (_state p) = negb b →
  let s := sanitized (JArray l) in
  let p' := after (_handleUnlockStateChanged a (JBoolean b)) p in
  returns (_handleUnlockStateChanged a (JBoolean b)) p = true ∧
  isUnlocked (_state p') = b ∧
  accounts (_state p') = Some s ∧
  emits (_handleUnlockStateChanged a (JBoolean b)) p
    = (if negb (dequal (accounts (_state p)) s) && initialized (_state p)
       then [Ev_accountsChanged s] else []).
Proof.
  intros Ha Hu s p'. subst p'.
  pose proof (handleUnlockStateChanged_changed a b p Hu) as E. rewrite Ha in E.
  destruct (handleAccountsChanged_array_spec l false (set_state (set_isUnlocked b) p))
    as (p' & Hrun & Hacc & _ & Hem & _ & Hunl & _).
  cbv zeta in Hacc, Hem. fold s in Hacc, Hem.
  rewrite Hrun in E. unfold returns. rewrite (after_eq _ _ _ _ E), E. cbn [fst].
  split; [reflexivity |]. split; [exact Hunl |]. split; [exact Hacc |].
  apply (emits_eq _ _ _ _ _ E). exact Hem.
Qed.

Lemma lock_state_change_updates_accounts_witness :
  emits (_handleUnlockStateChanged JUndefined (JBoolean false))
    (after (_initializeState hexPrefixed scenario1) new_BaseProvider)
  = [Ev_accountsChanged []].
Proof.
  exact (proj2 (proj2 (proj2 (lock_state_change_updates_accounts JUndefined [] false
           (after (_initializeState hexPrefixed scenario1) new_BaseProvider)
           eq_refl eq_refl)))).
Defined.

(** X13: an unlock notification that does not change the lock state, be
    it because its flag equals the stored one or because it is no boolean,
    is dropped whole: the accounts it carries are not looked at, and state
    and events stay as they were. *)
Theorem stale_unlock_notification_is_dropped (a u : JsValue) (p : BaseProvider) :
  u ≠ JBoolean (negb (isUnlocked (_state p))) →
  let p' := after (_handleUnlockStateChanged a u) p in
  returns (_handleUnlockStateChanged a u) p = true ∧
  _state p' = _state p ∧
  selectedAddress p' = selectedAddress p ∧
  chainId p' = chainId p ∧
  emitted p' = emitted p.
Proof.
  intros Hu p'. subst p'.
  assert (E : ∃ q, _handleUnlockStateChanged a u p = (Returned tt, q) ∧ _state q = _state p ∧
                   selectedAddress q = selectedAddress p ∧ chainId q = chainId p ∧
                   emitted q = emitted p);
    [| destruct E as (q & E & H); unfold returns; rewrite (after_eq _ _ _ _ E), E; auto].
  unfold _handleUnlockStateChanged.
  destruct u as [| | b | n | s | elems | fs | nm]; try (eexists; split; [reflexivity |]; cbn; auto; fail).
  unfold bind at 1, read at 1.
  destruct (Bool.eqb b (isUnlocked (_state p))) eqn:B.
  - exists p. cbn. auto.
  - exfalso. apply Hu. f_equal.
    destruct b; destruct (isUnlocked (_state p)); try discriminate B; reflexivity.
Qed.

Lemma stale_unlock_notification_is_dropped_witness :
  accounts (_state (after (_handleUnlockStateChanged (ofStrings ["0xdef"]) (JBoolean true))
                      (after (_initializeState hexPrefixed scenario1) new_BaseProvider)))
  = Some ["0xabc"].
Proof.
  pose proof (stale_unlock_notification_is_dropped (ofStrings ["0xdef"]) (JBoolean true)
                (after (_initializeState hexPrefixed scenario1) new_BaseProvider)) as H.
  cbv zeta in H. destruct H as (_ & Hs & _).
  - discriminate.
  - rewrite Hs. reflexivity.
Defined.

(** ** Invariants of every run *)

Section Invariant.
Variable validHex : string → bool.
Variable Inv : BaseProvider → Prop.

Hypothesis Inv_connect : ∀ c p, Inv p → Inv (after (_handleConnect c) p).
Hypothesis Inv_disconnect : ∀ r m p, Inv p → Inv (after (_handleDisconnect r m) p).
Hypothesis Inv_chainId : ∀ c p, validHex c = true → Inv p → Inv (set_chainId (Some c) p).
Hypothesis Inv_chainChanged :
  ∀ c p, initialized (_state p) = true → Inv p → Inv (push_event (Ev_chainChanged c) p).
Hypothesis Inv_accounts : ∀ v e p, Inv p → Inv (after (_handleAccountsChanged v e) p).
Hypothesis Inv_unlocked : ∀ b p, Inv p → Inv (set_state (set_isUnlocked b) p).
Hypothesis Inv_log : ∀ l p, Inv p → Inv (push_log l p).
Hypothesis Inv_ready :
  ∀ p, initialized (_state p) = false → Inv p →
       Inv (push_event Ev_initialized (set_state (set_initialized true) p)).

Lemma handleChainChanged_keeps (v : JsValue) (p : BaseProvider) :
  Inv p → Inv (after (_handleChainChanged validHex v) p).
Proof.
  intros H. destruct (isValidChainId validHex v) as [c|] eqn:E.
  - rewrite (after_eq _ _ _ _ (handleChainChanged_valid validHex v c p E)). cbv zeta.
    assert (Hc : validHex c = true).
    { destruct v; try discriminate E. cbn in E. destruct (validHex s) eqn:V; congruence. }
    pose proof (Inv_connect (JString c) p H) as H1.
    destruct (bool_decide _); [exact H1 |].
    destruct (initialized _) eqn:Hi.
    + apply Inv_chainChanged; [exact Hi | apply Inv_chainId; assumption].
    + apply Inv_chainId; assumption.
  - rewrite (after_eq _ _ _ _ (handleChainChanged_invalid validHex v p E)). apply Inv_log. exact H.
Qed.

Lemma handleUnlockStateChanged_keeps (a u : JsValue) (p : BaseProvider) :
  Inv p → Inv (after (_handleUnlockStateChanged a u) p).
Proof.
  intros H. unfold after at 1, _handleUnlockStateChanged.
  destruct u as [| | b | n | s | elems | fs | nm]; try (apply Inv_log; exact H).
  unfold bind at 1, read at 1.
  destruct (negb (Bool.eqb b (isUnlocked (_state p)))); cbn [when]; [| exact H].
  unfold bind at 1, update at 1.
  apply (Inv_accounts _ false (set_state (set_isUnlocked b) p)). apply Inv_unlocked. exact H.
Qed.

Lemma notify_keeps (n : Notification) (p : BaseProvider) :
  Inv p → Inv (after (notify validHex n) p).
Proof.
  destruct n as [c | r m | v | v e | a u]; cbn [notify]; intros H.
  - apply Inv_connect, H.
  - apply Inv_disconnect, H.
  - apply handleChainChanged_keeps, H.
  - apply Inv_accounts, H.
  - apply handleUnlockStateChanged_keeps, H.
Qed.

Lemma perform_keeps (a : Action) (p : BaseProvider) :
  Inv p → Inv (after (perform validHex a) p).
Proof.
  destruct a as [i | n]; cbn [perform]; intros H; [| apply notify_keeps, H].
  destruct (initialized (_state p)) eqn:Hi.
  - rewrite (after_eq _ _ _ _ (initializeState_again validHex i p Hi)). exact H.
  - assert (H1 : Inv (after (applySnapshot validHex i) p)).
    { apply applySnapshot_keeps; [apply Inv_connect | apply handleChainChanged_keeps
                                 | apply handleUnlockStateChanged_keeps | apply Inv_accounts | exact H]. }
    pose proof (applySnapshot_initialized validHex i p) as Hi1. rewrite Hi in Hi1.
    unfold after in *. rewrite (initializeState_unfold validHex i p Hi).
    destruct (applySnapshot validHex i p) as [[[]|e] p1]; cbn in *; [| exact H1].
    apply Inv_ready; assumption.
Qed.

Lemma performAll_keeps (acts : list Action) (p : BaseProvider) :
  Inv p → Inv (performAll validHex acts p).
Proof.
  revert p. induction acts as [| a acts IH]; intros p H; [exact H |].
  unfold performAll in *. cbn [foldl]. apply IH, perform_keeps, H.
Qed.

End Invariant.

(** What the accounts-changed handler does to the fields other handlers
    read, for every value: nothing when it throws, and otherwise what
    [commitAccounts] does with the sanitized list. *)
Lemma handleAccountsChanged_effect (v : JsValue) (e : bool) (p : BaseProvider) :
  let p' := after (_handleAccountsChanged v e) p in
  let s := sanitized v in
  (_state p' = _state p ∧ selectedAddress p' = selectedAddress p ∧
   chainId p' = chainId p ∧ emitted p' = emitted p) ∨
  (accounts (_state p') = Some s ∧
   selectedAddress p' =
     (if dequal (accounts (_state p)) s then selectedAddress p
      else if differsFromFirst (selectedAddress p) s then firstOrNull s
           else selectedAddress p) ∧
   emitted p' =
     emitted p ++
     (if negb (dequal (accounts (_state p)) s) && initialized (_state p)
      then [Ev_accountsChanged s] else []) ∧
   isConnected (_state p') = isConnected (_state p) ∧
   isUnlocked (_state p') = isUnlocked (_state p) ∧
   initialized (_state p') = initialized (_state p) ∧
   isPermanentlyDisconnected (_state p') = isPermanentlyDisconnected (_state p) ∧
   chainId p' = chainId p).
Proof.
  cbv zeta. destruct (iterate v) as [visited|] eqn:E.
  - right. destruct v as [| | b | n | s | elems | fs | nm]; try discriminate E.
    + pose proof (handleAccountsChanged_string s e p) as Hs.
      match type of Hs with _ = commitAccounts ?a ?b ?q =>
        destruct (commitAccounts_eq a b q) as (p' & Hrun & H) end.
      rewrite Hrun in Hs. rewrite (after_eq _ _ _ _ Hs). exact H.
    + destruct (handleAccountsChanged_array_spec elems e p) as (p' & Hrun & H).
      rewrite (after_eq _ _ _ _ Hrun). exact H.
  - left. rewrite (after_eq _ _ _ _ (handleAccountsChanged_not_iterable v e p E)).
    cbn. auto.
Qed.

Lemma connectivity_snoc (es : list Event) (e : Event) :
  connectivity (es ++ [e]) =
  match e with
  | Ev_connect _ => true
  | Ev_disconnect _ => false
  | _ => connectivity es
  end.
Proof. unfold connectivity. rewrite foldl_snoc. reflexivity. Qed.

Lemma gated_snoc (es : list Event) (e : Event) : gated (es ++ [e]) = gate (gated es) e.
Proof. unfold gated. apply foldl_snoc. Qed.

Lemma firstOrNull_nonempty (l : list string) (a : string) :
  firstOrNull l = Some a → head l = Some a ∧ a ≠ "".
Proof.
  unfold firstOrNull. destruct (head l) as [b|]; [| discriminate].
  destruct (String.eqb b "") eqn:E; [discriminate |].
  intros [= <-]. split; [reflexivity |]. intros ->. discriminate E.
Qed.

Section Reachable.
Variable validHex : string → bool.

(** X14: in every run from a new instance, whatever is called with
    whatever values, [isConnected] is what the [connect] and [disconnect]
    events emitted so far say: true exactly when the last of them is a
    [connect]. *)
Theorem isConnected_matches_events (acts : list Action) :
  isConnected (_state (performAll validHex acts new_BaseProvider))
  = connectivity (emitted (performAll validHex acts new_BaseProvider)).
Proof.
  apply (performAll_keeps validHex
           (λ p, isConnected (_state p) = connectivity (emitted p))); try reflexivity.
  - intros c p H. rewrite (after_eq _ _ _ _ (handleConnect_eq c p)).
    destruct (isConnected (_state p)) eqn:C; [congruence |].
    cbn. rewrite connectivity_snoc. reflexivity.
  - intros r m p H. rewrite (after_eq _ _ _ _ (handleDisconnect_eq r m p)).
    destruct (_ || _); [| exact H].
    destruct r; cbn; rewrite connectivity_snoc; reflexivity.
  - intros c p _ H. exact H.
  - intros c p _ H. cbn. rewrite connectivity_snoc. exact H.
  - intros v e p H.
    destruct (handleAccountsChanged_effect v e p) as [(Hs & _ & _ & He) | (_ & _ & He & Hc & _)];
      cbv zeta in *.
    + rewrite Hs, He. exact H.
    + rewrite Hc, He. destruct (_ && _); [rewrite connectivity_snoc | rewrite app_nil_r]; exact H.
  - intros b p H. exact H.
  - intros l p H. exact H.
  - intros p _ H. cbn. rewrite connectivity_snoc. exact H.
Qed.

(** X15: in every run from a new instance, [selectedAddress] is determined
    by the stored accounts: [null] while they are [null] or empty, otherwise
    the first account, except that an empty first string also gives [null]. *)
Theorem selectedAddress_follows_accounts (acts : list Action) :
  selectedAddress (performAll validHex acts new_BaseProvider)
  = selectedOf (accounts (_state (performAll validHex acts new_BaseProvider))).
Proof.
  apply (performAll_keeps validHex
           (λ p, selectedAddress p = selectedOf (accounts (_state p)))); try reflexivity.
  - intros c p H. destruct (handleConnect_frame c p) as (Ha & _ & _ & _ & _ & Hs).
    rewrite Ha, Hs. exact H.
  - intros r m p H. rewrite (after_eq _ _ _ _ (handleDisconnect_eq r m p)).
    destruct (_ || _); [| exact H]. destruct r; [exact H | reflexivity].
  - intros c p _ H. exact H.
  - intros c p _ H. exact H.
  - intros v e p H.
    destruct (handleAccountsChanged_effect v e p) as [(Hs & Hsel & _) | (Ha & Hsel & _)];
      cbv zeta in *.
    + rewrite Hs, Hsel. exact H.
    + rewrite Ha, Hsel. cbn [selectedOf].
      destruct (dequal (accounts (_state p)) (sanitized v)) eqn:D.
      * apply dequal_true in D. rewrite H, D. reflexivity.
      * unfold differsFromFirst.
        destruct (head (sanitized v)) as [a|] eqn:Hh; [| reflexivity].
        destruct (bool_decide (selectedAddress p = Some a)) eqn:B; [| reflexivity].
        apply bool_decide_eq_true in B. cbn [negb].
        rewrite B in H. destruct (accounts (_state p)) as [l|]; [| discriminate H].
        symmetry in H. apply firstOrNull_nonempty in H as [_ Hne].
        rewrite B. unfold firstOrNull. rewrite Hh.
        destruct (String.eqb a "") eqn:Ea; [| reflexivity].
        apply String.eqb_eq in Ea. contradiction.
  - intros b p H. exact H.
  - intros l p H. exact H.
  - intros p _ H. exact H.
Qed.

(** X16: in every run from a new instance, the events come in the order
    the [initialized] flag dictates: no [chainChanged] and no
    [accountsChanged] is emitted before the internal signal, the signal is
    emitted at most once, and the flag is set exactly when it was. *)
Theorem change_events_wait_for_initialization (acts : list Action) :
  gated (emitted (performAll validHex acts new_BaseProvider))
  = Some (initialized (_state (performAll validHex acts new_BaseProvider))).
Proof.
  apply (performAll_keeps validHex
           (λ p, gated (emitted p) = Some (initialized (_state p)))); try reflexivity.
  - intros c p H. rewrite (after_eq _ _ _ _ (handleConnect_eq c p)).
    destruct (isConnected (_state p)); [exact H |].
    cbn. rewrite gated_snoc, H. destruct (initialized (_state p)); reflexivity.
  - intros r m p H. rewrite (after_eq _ _ _ _ (handleDisconnect_eq r m p)).
    destruct (_ || _); [| exact H].
    destruct r; cbn; rewrite gated_snoc, H; destruct (initialized (_state p)); reflexivity.
  - intros c p _ H. exact H.
  - intros c p Hi H. cbn. rewrite gated_snoc, H, Hi. reflexivity.
  - intros v e p H.
    destruct (handleAccountsChanged_effect v e p) as [(Hs & _ & _ & He) | (_ & _ & He & _ & _ & Hi & _)];
      cbv zeta in *.
    + rewrite Hs, He. exact H.
    + rewrite Hi, He. destruct (negb _); cbn [andb]; [| rewrite app_nil_r; exact H].
      destruct (initialized (_state p)) eqn:I; [| rewrite app_nil_r; exact H].
      rewrite gated_snoc, H. reflexivity.
  - intros b p H. exact H.
  - intros l p H. exact H.
  - intros p Hi H. cbn. rewrite gated_snoc, H, Hi. reflexivity.
Qed.

(** X17: in every run from a new instance, the stored [chainId] is [null]
    or a string the validator accepts: what fails validation is never
    stored, wherever it comes from. *)
Theorem stored_chainId_is_valid (acts : list Action) (c : string) :
  chainId (performAll validHex acts new_BaseProvider) = Some c → validHex c = true.
Proof.
  revert c.
  apply (performAll_keeps validHex (λ p, ∀ c, chainId p = Some c → validHex c = true)).
  - intros c p H. destruct (handleConnect_frame c p) as (_ & _ & _ & _ & Hc & _).
    rewrite Hc. exact H.
  - intros r m p H. rewrite (after_eq _ _ _ _ (handleDisconnect_eq r m p)).
    destruct (_ || _); [| exact H]. destruct r; [exact H | discriminate].
  - intros c p Hc _ c' [= <-]. exact Hc.
  - intros c p _ H. exact H.
  - intros v e p H.
    destruct (handleAccountsChanged_effect v e p) as [(_ & _ & Hc & _) | (_ & _ & _ & _ & _ & _ & _ & Hc)];
      cbv zeta in *; rewrite Hc; exact H.
  - intros b p H. exact H.
  - intros l p H. exact H.
  - intros p _ H. exact H.
  - discriminate.
Qed.

(** X18: [isPermanentlyDisconnected] is never reset: once it is set, it
    stays set through every later call of the initializer and of the
    handlers, with any values. *)
Theorem permanent_disconnect_is_permanent (acts : list Action) (p : BaseProvider) :
  isPermanentlyDisconnected (_state p) = true →
  isPermanentlyDisconnected (_state (performAll validHex acts p)) = true.
Proof.
  apply (performAll_keeps validHex (λ p, isPermanentlyDisconnected (_state p) = true)).
  - intros c q H. destruct (handleConnect_frame c q) as (_ & _ & _ & Hp & _). congruence.
  - intros r m q H. rewrite (after_eq _ _ _ _ (handleDisconnect_eq r m q)).
    destruct (_ || _); [| exact H]. destruct r; [exact H | reflexivity].
  - intros c q _ H. exact H.
  - intros c q _ H. exact H.
  - intros v e q H.
    destruct (handleAccountsChanged_effect v e q) as [(Hs & _) | (_ & _ & _ & _ & _ & _ & Hp & _)];
      cbv zeta in *; congruence.
  - intros b q H. exact H.
  - intros l q H. exact H.
  - intros q _ H. exact H.
Qed.

End Reachable.

Lemma stored_chainId_is_valid_witness :
  hexPrefixed "0x1" = true.
Proof.
  exact (stored_chainId_is_valid hexPrefixed
           [Act_initialize scenario1;
            Act_notify (Notify_chainChanged (JString "mainnet"))] "0x1" eq_refl).
Defined.

Lemma permanent_disconnect_is_permanent_witness :
  isPermanentlyDisconnected
    (_state (performAll hexPrefixed
               [Act_notify (Notify_connect (JString "0x1")); Act_initialize JUndefined;
                Act_notify (Notify_accountsChanged (ofStrings ["0xabc"]) false)]
               disconnectedProvider)) = true.
Proof.
  exact (permanent_disconnect_is_permanent hexPrefixed
           [Act_notify (Notify_connect (JString "0x1")); Act_initialize JUndefined;
            Act_notify (Notify_accountsChanged (ofStrings ["0xabc"]) false)]
           disconnectedProvider eq_refl).
Defined.

(** ** The ordinary path of the dispatcher *)

Lemma rpcRequest_engine (payload : Payload) (choseThis : bool) (pg : Page) :
  methodIs payload "eth_requestAccounts" = false →
  _rpcRequest payload choseThis pg = (Returned (viaEngine payload), pg).
Proof.
  intros H. unfold _rpcRequest. rewrite H.
  destruct (_originalMetaMask (provider pg)); reflexivity.
Qed.

(** X19: a call that is not a single [eth_requestAccounts] never waits for
    the user's choice and never touches the page: it goes to the engine
    with its id, method and params as given and with a version tag, its own
    if it has a truthy one and "2.0" otherwise; the callback is wrapped
    exactly for [eth_accounts].  A batch goes through as it is and is never
    wrapped, whatever it contains. *)
Theorem other_calls_go_to_the_engine
    (req : JsonRpcRequest) (reqs : list JsonRpcRequest) (choseThis : bool) (pg : Page) :
  rpc_method req ≠ "eth_requestAccounts" →
  (∃ version,
     _rpcRequest (Single req) choseThis pg =
     (Returned (Engine_handle
                  (Single {| rpc_id := rpc_id req; rpc_jsonrpc := version;
                             rpc_method := rpc_method req; rpc_params := rpc_params req |})
                  (if String.eqb (rpc_method req) "eth_accounts"
                   then AccountsCallback true else ConsumerCallback)),
      pg) ∧
     truthy version = true ∧
     (truthy (rpc_jsonrpc req) = true → version = rpc_jsonrpc req) ∧
     (truthy (rpc_jsonrpc req) = false → version = JString "2.0")) ∧
  _rpcRequest (Batch reqs) choseThis pg
    = (Returned (Engine_handle (Batch reqs) ConsumerCallback), pg).
Proof.
  intros Hm.
  assert (Hf : String.eqb (rpc_method req) "eth_requestAccounts" = false)
    by (apply String.eqb_neq; exact Hm).
  split; [| apply rpcRequest_engine; reflexivity].
  rewrite rpcRequest_engine by exact Hf.
  unfold viaEngine. destruct req as [i v m ps]. cbn in *.
  destruct (truthy v) eqn:Tv; cbn; rewrite Hf, orb_false_r.
  - exists v. destruct (String.eqb m "eth_accounts"); auto using Tv.
    all: repeat split; auto; congruence.
  - exists (JString "2.0"). destruct (String.eqb m "eth_accounts"); repeat split; auto; congruence.
Qed.

Lemma other_calls_go_to_the_engine_witness :
  _rpcRequest (Single {| rpc_id := JNumber 1; rpc_jsonrpc := JUndefined;
                         rpc_method := "eth_accounts"; rpc_params := JUndefined |})
              false earlyDetection
  = (Returned (Engine_handle
                 (Single {| rpc_id := JNumber 1; rpc_jsonrpc := JString "2.0";
                            rpc_method := "eth_accounts"; rpc_params := JUndefined |})
                 (AccountsCallback true)),
     earlyDetection).
Proof.
  destruct (proj1 (other_calls_go_to_the_engine
                     {| rpc_id := JNumber 1; rpc_jsonrpc := JUndefined;
                        rpc_method := "eth_accounts"; rpc_params := JUndefined |}
                     [] false earlyDetection ltac:(discriminate)))
    as (version & E & _ & _ & Hv).
  rewrite E. rewrite (Hv eq_refl). reflexivity.
Defined.

(** X20: a call made through [request] reaches the engine as JSON-RPC
    2.0 without an id: for an object whose [method] is a non-empty string
    other than [eth_requestAccounts] and whose [params] is absent, an array or
    an object, [request] followed by the dispatcher hands the engine the
    payload with that method and those params, the version "2.0" and no id,
    with the callback wrapped exactly for [eth_accounts]; the page is
    unchanged and the user's choice is not consulted. *)
Theorem request_reaches_engine_as_version_2
    (fs : list (string * JsValue)) (m : string) (choseThis : bool) (pg : Page) :
  getProperty (JObject fs) "method" = JString m →
  m ≠ "" → m ≠ "eth_requestAccounts" →
  (getProperty (JObject fs) "params" = JUndefined ∨
   (∃ l, getProperty (JObject fs) "params" = JArray l) ∨
   (∃ o, getProperty (JObject fs) "params" = JObject o)) →
  requestThenDispatch (JObject fs) choseThis pg =
  (Returned (Engine_handle
               (Single {| rpc_id := JUndefined; rpc_jsonrpc := JString "2.0";
                          rpc_method := m; rpc_params := getProperty (JObject fs) "params" |})
               (if String.eqb m "eth_accounts"
                then AccountsCallback true else ConsumerCallback)),
   pg).
Proof.
  intros Hm Hne Hreq Hps.
  assert (Hl : (String.length m =? 0)%nat = false).
  { destruct (String.length m =? 0)%nat eqn:E; [| reflexivity].
    apply length_zero_empty in E. contradiction. }
  assert (Hf : String.eqb m "eth_requestAccounts" = false) by (apply String.eqb_neq; exact Hreq).
  assert (E : request (λ a, ret a) (JObject fs) (provider pg)
              = (Returned {| method := m; params := getProperty (JObject fs) "params" |},
                 provider pg)).
  { unfold request. cbn [truthy typeof JsType_eqb isArray negb orb]. rewrite Hm, Hl.
    destruct Hps as [-> | [[l ->] | [o ->]]]; reflexivity. }
  unfold requestThenDispatch. rewrite E. cbn [method params].
  rewrite rpcRequest_engine by exact Hf.
  cbn. rewrite Hf, orb_false_r.
  destruct (String.eqb m "eth_accounts"); reflexivity.
Qed.

Lemma request_reaches_engine_as_version_2_witness :
  requestThenDispatch (JObject [("method", JString "eth_chainId")]) false lateDetection
  = (Returned (Engine_handle
                 (Single {| rpc_id := JUndefined; rpc_jsonrpc := JString "2.0";
                            rpc_method := "eth_chainId"; rpc_params := JUndefined |})
                 ConsumerCallback),
     lateDetection).
Proof.
  exact (request_reaches_engine_as_version_2 [("method", JString "eth_chainId")] "eth_chainId"
           false lateDetection eq_refl ltac:(discriminate) ltac:(discriminate)
           (or_introl eq_refl)).
Defined.

(** ** More on the indirection layer *)

Lemma runLayer_cons_assign (target : Reference) (rest : list LayerStep) (l : Layer) :
  runLayer (Assign target :: rest) l = runLayer rest (snd (setTarget target l)).
Proof. reflexivity. Qed.

Lemma runLayer_after (a b b' : list LayerStep) (l : Layer) :
  (∀ l1, runLayer b l1 = runLayer b' l1) →
  runLayer (a ++ b) l = runLayer (a ++ b') l.
Proof. intros H. rewrite !runLayer_app, H. reflexivity. Qed.

(** X21: a refused assignment is as if it had not happened: a run with a
    [setTarget] of a value that is not an object forwards the same calls to
    the same delegates, and leaves the same layer, as the run without it. *)
Theorem refused_assignment_is_skipped
    (v : Reference) (before rest : list LayerStep) (l : Layer) :
  instanceofObject v = false →
  fst (setTarget v (snd (runLayer before l))) = Thrown (Error "Target is not an object") ∧
  runLayer (before ++ Assign v :: rest) l = runLayer (before ++ rest) l.
Proof.
  intros Hv. split.
  - rewrite (setTarget_primitive v _ Hv). reflexivity.
  - apply runLayer_after. intros l1.
    rewrite runLayer_cons_assign, (setTarget_primitive v l1 Hv). reflexivity.
Qed.

Lemma refused_assignment_is_skipped_witness :
  fst (runLayer [Assign TheProvider; Assign (Plain JNull); Operation "has" [Plain (JObject []); Plain (JString "request")]]
         mutableProxyFactory)
  = [ {| fw_handler := Reflect; fw_trap := "has"; fw_target := TheProvider;
         fw_rest := [Plain (JString "request")] |} ].
Proof.
  pose proof (proj2 (refused_assignment_is_skipped (Plain JNull) [Assign TheProvider]
                       [Operation "has" [Plain (JObject []); Plain (JString "request")]]
                       mutableProxyFactory eq_refl)) as H.
  cbn [app] in H. rewrite H. reflexivity.
Defined.

(** X22: of two assignments in a row the second decides: if it is
    accepted, the run is the one without the first. *)
Theorem last_assignment_wins
    (d1 d2 : Reference) (before rest : list LayerStep) (l : Layer) :
  instanceofObject d2 = true →
  runLayer (before ++ Assign d1 :: Assign d2 :: rest) l
  = runLayer (before ++ Assign d2 :: rest) l.
Proof.
  intros Hd. apply runLayer_after. intros l1.
  rewrite !runLayer_cons_assign. f_equal.
  rewrite !(setTarget_object d2 _ Hd). cbn [snd].
  destruct (setTarget_frame d1 l1) as (Hh & Hp & Ht).
  rewrite Hh, Hp, Ht. reflexivity.
Qed.

Lemma last_assignment_wins_witness :
  mutableTarget (snd (runLayer [Assign metaMask; Assign TheProvider] mutableProxyFactory))
  = TheProvider.
Proof.
  pose proof (last_assignment_wins metaMask TheProvider [] [] mutableProxyFactory eq_refl) as H.
  cbn [app] in H. rewrite H. reflexivity.
Defined.

Lemma JsType_eqb_eq (a b : JsType) : JsType_eqb a b = true ↔ a = b.
Proof. destruct a, b; cbn; split; intros H; try reflexivity; discriminate H. Qed.

Lemma checkTraps_valid (entries : list (string * JsValue)) :
  checkTraps entries = None ↔ Forall validTrap entries.
Proof.
  induction entries as [| [key value] rest IH]; cbn [checkTraps].
  - split; [constructor | reflexivity].
  - rewrite Forall_cons. unfold validTrap at 1. cbn [fst snd].
    rewrite <- JsType_eqb_eq, <- IH.
    destruct (JsType_eqb (typeof value) TyFunction); cbn [negb];
      [| split; [discriminate | intros [[H _] _]; discriminate H]].
    destruct (reflectHas key); cbn [negb];
      [tauto | split; [discriminate | intros [[_ H] _]; discriminate H]].
Qed.

Lemma checkTraps_first (before after : list (string * JsValue)) (kv : string * JsValue) :
  Forall validTrap before → ¬ validTrap kv →
  checkTraps (before ++ kv :: after) =
  Some (Error (if JsType_eqb (typeof kv.2) TyFunction
               then "Trap is not a valid trap" else "Trap is not a function")).
Proof.
  intros Hb Hkv. induction Hb as [| [key value] rest [Hf Hr] _ IH]; cbn [app checkTraps].
  - destruct kv as [key value]. cbn [fst snd] in *. unfold validTrap in Hkv. cbn [fst snd] in Hkv.
    destruct (JsType_eqb (typeof value) TyFunction) eqn:T; cbn [negb]; [| reflexivity].
    apply JsType_eqb_eq in T.
    destruct (reflectHas key); cbn [negb]; [| reflexivity].
    exfalso. apply Hkv. auto.
  - cbn [fst snd] in *. apply JsType_eqb_eq in Hf. rewrite Hf, Hr. exact IH.
Qed.

(** X24: [setHandler] accepts a handler table exactly when every entry is
    a function under a name for which [Reflect] has a property.  These are
    not only the traps: a name [Reflect] inherits, such as [toString], passes
    as well.  An accepted table replaces the old one and nothing else.
    Otherwise the first entry that fails decides the error, not a function or
    not a valid trap, and the layer, with the table in force, stays as it
    was. *)
Theorem setHandler_accepts_what_Reflect_has (h : HandlerObject) (l : Layer) :
  (Forall validTrap (handlerEntries h) →
     setHandler h l =
     (Returned tt, {| mutableTarget := mutableTarget l; mutableHandler := h;
                      proxy := proxy l; proxyTarget := proxyTarget l |})) ∧
  (¬ Forall validTrap (handlerEntries h) →
     ∃ e, setHandler h l = (Thrown e, l)) ∧
  (∀ before kv after,
     handlerEntries h = before ++ kv :: after →
     Forall validTrap before → ¬ validTrap kv →
     setHandler h l =
     (Thrown (Error (if JsType_eqb (typeof kv.2) TyFunction
                     then "Trap is not a valid trap" else "Trap is not a function")), l)) ∧
  (∀ f, validTrap ("get", JFunction f) ∧ validTrap ("toString", JFunction f) ∧
        ¬ validTrap ("fetch", JFunction f) ∧ "toString" ∉ reflectMethods).
Proof.
  unfold setHandler. split; [| split; [| split]].
  - intros H. apply checkTraps_valid in H. rewrite H. reflexivity.
  - intros H. destruct (checkTraps (handlerEntries h)) as [e|] eqn:E; [eexists; reflexivity |].
    exfalso. apply H, checkTraps_valid, E.
  - intros before kv after -> Hb Hkv. rewrite (checkTraps_first before after kv Hb Hkv).
    reflexivity.
  - intros f. split; [split; reflexivity |]. split; [split; reflexivity |].
    split; [intros [_ H]; vm_compute in H; discriminate H |].
    intros H. apply (bool_decide_pack _) in H. vm_compute in H. destruct H.
Qed.

Lemma setHandler_accepts_what_Reflect_has_witness :
  setHandler (HandlerLiteral [("toString", JFunction "f")]) mutableProxyFactory
    = (Returned tt,
       {| mutableTarget := Plain (JObject []);
          mutableHandler := HandlerLiteral [("toString", JFunction "f")];
          proxy := TheProxy; proxyTarget := Plain (JObject []) |}) ∧
  setHandler (HandlerLiteral [("get", JFunction "get"); ("fetch", JFunction "fetch")])
             mutableProxyFactory
    = (Thrown (Error "Trap is not a valid trap"), mutableProxyFactory) ∧
  setHandler (HandlerLiteral [("get", JNumber 1); ("fetch", JFunction "fetch")])
             mutableProxyFactory
    = (Thrown (Error "Trap is not a function"), mutableProxyFactory).
Proof.
  split; [| split].
  - apply (proj1 (setHandler_accepts_what_Reflect_has
                    (HandlerLiteral [("toString", JFunction "f")]) mutableProxyFactory)).
    repeat constructor.
  - apply (proj1 (proj2 (proj2 (setHandler_accepts_what_Reflect_has
                    (HandlerLiteral [("get", JFunction "get"); ("fetch", JFunction "fetch")])
                    mutableProxyFactory)))
             [("get", JFunction "get")] ("fetch", JFunction "fetch") [] eq_refl).
    + repeat constructor.
    + intros [_ H]. vm_compute in H. discriminate H.
  - apply (proj1 (proj2 (proj2 (setHandler_accepts_what_Reflect_has
                    (HandlerLiteral [("get", JNumber 1); ("fetch", JFunction "fetch")])
                    mutableProxyFactory)))
             [] ("get", JNumber 1) [("fetch", JFunction "fetch")] eq_refl).
    + constructor.
    + intros [H _]. discriminate H.
Defined.

(** ** The installer *)

Lemma runPage_app (a b : list PageStep) (pg : Page) :
  runPage (a ++ b) pg = runPage b (runPage a pg).
Proof. unfold runPage. apply foldl_app. Qed.

Lemma runPage_locked (steps : list PageStep) (pg : Page) :
  ethereum_writable pg = false → runPage steps pg = pg.
Proof.
  intros H. induction steps as [| st steps IH]; [reflexivity |].
  unfold runPage in *. cbn [foldl].
  assert (E : pageStep st pg = pg)
    by (destruct st; cbn; rewrite H, ?andb_false_r; reflexivity).
  rewrite E. exact IH.
Qed.

Lemma runPage_stopped (n : nat) (pg : Page) :
  interval pg = false → runPage (replicate n Tick) pg = pg.
Proof.
  intros H. induction n as [| n IH]; [reflexivity |].
  unfold runPage in *. cbn [replicate foldl]. cbn [pageStep]. rewrite H. exact IH.
Qed.

Lemma unflagged_not_detected (r : Reference) (pg : Page) :
  unflagged r = true → refTruthy r && isMetaMask pg r = false.
Proof.
  destruct r as [v | | name b |]; cbn; try discriminate.
  - intros H. apply negb_true_iff in H. exact H.
  - intros H. apply negb_true_iff in H. exact H.
Qed.

Lemma polling_tick (pg : Page) :
  polling pg →
  pageStep Tick pg =
  (if (10 <=? S (count pg))%nat
   then clearInterval (set_slot TheProvider false (set_count (S (count pg)) pg))
   else set_count (S (count pg)) pg).
Proof.
  intros (Hi & Hw & _ & Hu & _). cbn [pageStep]. rewrite Hi, Hw. cbn [andb].
  unfold intervalCallback. rewrite (unflagged_not_detected _ pg Hu). reflexivity.
Qed.

Lemma polling_run (steps : list PageStep) (pg : Page) :
  forallb unflaggedStep steps = true → polling pg →
  (count pg + countTicks steps < 10 →
     polling (runPage steps pg) ∧ count (runPage steps pg) = count pg + countTicks steps ∧
     windowEvents (runPage steps pg) = windowEvents pg ∧
     provider (runPage steps pg) = provider pg) ∧
  ((10 ≤ count pg + countTicks steps)%nat →
     locked (runPage steps pg) ∧ count (runPage steps pg) = 10 ∧
     _originalMetaMask (provider (runPage steps pg)) = None ∧ layer (runPage steps pg) = None ∧
     windowEvents (runPage steps pg) = windowEvents pg).
Proof.
  revert pg. induction steps as [| st steps IH]; intros pg Hs Hp.
  - cbn. rewrite Nat.add_0_r. split; [auto |].
    intros H. destruct Hp as (_ & _ & Hc & _). lia.
  - cbn [forallb] in Hs. apply andb_true_iff in Hs as [Hst Hs].
    change (runPage (st :: steps) pg) with (runPage steps (pageStep st pg)).
    destruct st as [| r]; cbn [countTicks isTick].
    + rewrite (polling_tick pg Hp).
      destruct Hp as (Hi & Hw & Hc & Hu & Ho & Hl).
      destruct (10 <=? S (count pg))%nat eqn:L.
      * apply Nat.leb_le in L.
        rewrite runPage_locked by reflexivity.
        split; [intros; lia |]. intros _. cbn.
        split; [repeat split |]. split; [lia |]. auto.
      * apply Nat.leb_gt in L.
        assert (Hp' : polling (set_count (S (count pg)) pg)).
        { split; [exact Hi |]. split; [exact Hw |]. split; [exact L |]. auto. }
        destruct (IH _ Hs Hp') as [IH1 IH2]. cbn [count set_count] in IH1, IH2.
        split; intros H.
        -- destruct IH1 as (K1 & K2 & K3 & K4); [lia |].
           split; [exact K1 |]. split; [lia |]. split; [exact K3 | exact K4].
        -- apply IH2. lia.
    + destruct Hp as (Hi & Hw & Hc & Hu & Ho & Hl).
      cbn [pageStep unflaggedStep] in *. rewrite Hw.
      assert (Hp' : polling (set_slot r true pg)).
      { split; [exact Hi |]. split; [reflexivity |]. split; [exact Hc |]. auto. }
      destruct (IH _ Hs Hp') as [IH1 IH2]. cbn in IH1, IH2.
      split; intros H; [apply IH1 | apply IH2]; lia.
Qed.

Lemma polling_start (isMM : bool) : polling (setGlobalProvider (freshPage isMM)).
Proof. unfold polling. cbn. split; [reflexivity |]. split; [reflexivity |]. split; [lia | auto]. Qed.

(** X25: what does not pass for the other wallet is superseded: if no
    value put in the slot during the poll has a truthy [isMetaMask], then
    from the tenth poll on the slot holds the provider and cannot be written,
    the poll is stopped, nothing was recorded and no proxy was made; whatever
    happens on the page afterwards changes nothing. *)
Theorem unflagged_wallets_are_superseded
    (isMM : bool) (steps later : list PageStep) :
  forallb unflaggedStep steps = true → (10 ≤ countTicks steps)%nat →
  let pg := runPage steps (setGlobalProvider (freshPage isMM)) in
  window_ethereum pg = TheProvider ∧
  ethereum_writable pg = false ∧
  interval pg = false ∧
  _originalMetaMask (provider pg) = None ∧
  layer pg = None ∧
  windowEvents pg = ["ethereum#initialized"] ∧
  runPage (steps ++ later) (setGlobalProvider (freshPage isMM)) = pg.
Proof.
  intros Hs Hn pg. subst pg.
  destruct (proj2 (polling_run steps _ Hs (polling_start isMM)))
    as ((Hi & Hw & Hl) & _ & Ho & Hy & He); [cbn; lia |].
  repeat split; auto.
  rewrite runPage_app. apply runPage_locked. exact Hl.
Qed.

Lemma unflagged_wallets_are_superseded_witness :
  window_ethereum
    (runPage (replicate 4 Tick ++ Inject (External "Other" false) :: replicate 6 Tick)
       (setGlobalProvider (freshPage true)))
  = TheProvider.
Proof.
  exact (proj1 (unflagged_wallets_are_superseded true
           (replicate 4 Tick ++ Inject (External "Other" false) :: replicate 6 Tick) []
           eq_refl ltac:(cbn; lia))).
Defined.

(** X26: the other wallet met before the tenth poll is recorded and
    wrapped: if a value flagged [isMetaMask] is in the slot at a poll that
    fewer than nine polls preceded, the installer records it, passes the
    layer's setter to the provider, puts the proxy, delegating to the
    provider, in the slot, and stops polling; the slot stays writable, and the
    tenth-poll lock never happens however often the timer would fire. *)
Theorem wallet_met_early_is_wrapped
    (isMM : bool) (steps : list PageStep) (name : string) (n : nat) :
  forallb unflaggedStep steps = true → (countTicks steps ≤ 8)%nat →
  let pg := runPage (steps ++ Inject (External name true) :: Tick :: replicate n Tick)
              (setGlobalProvider (freshPage isMM)) in
  window_ethereum pg = TheProxy ∧
  delegateOf pg (window_ethereum pg) = TheProvider ∧
  ethereum_writable pg = true ∧
  interval pg = false ∧
  _originalMetaMask (provider pg) = Some (External name true) ∧
  _setWaymontTarget (provider pg) = Some Layer_setTarget ∧
  count pg = S (countTicks steps).
Proof.
  intros Hs Hn pg. subst pg.
  destruct (proj1 (polling_run steps _ Hs (polling_start isMM)))
    as ((Hi & Hw & Hc & Hu & Ho & Hl) & Hcount & _); [cbn; lia |].
  rewrite runPage_app.
  set (pg := runPage steps (setGlobalProvider (freshPage isMM))) in *.
  cbn [count setGlobalProvider freshPage] in Hcount. rewrite Nat.add_0_l in Hcount.
  change (runPage (Inject (External name true) :: Tick :: replicate n Tick) pg)
    with (runPage (replicate n Tick)
            (pageStep Tick (pageStep (Inject (External name true)) pg))).
  assert (E : interval (pageStep Tick (pageStep (Inject (External name true)) pg)) = false ∧
              window_ethereum (pageStep Tick (pageStep (Inject (External name true)) pg)) = TheProxy ∧
              layer (pageStep Tick (pageStep (Inject (External name true)) pg))
                = Some (snd (setTarget TheProvider mutableProxyFactory)) ∧
              ethereum_writable (pageStep Tick (pageStep (Inject (External name true)) pg)) = true ∧
              _originalMetaMask (provider (pageStep Tick (pageStep (Inject (External name true)) pg)))
                = Some (External name true) ∧
              _setWaymontTarget (provider (pageStep Tick (pageStep (Inject (External name true)) pg)))
                = Some Layer_setTarget ∧
              count (pageStep Tick (pageStep (Inject (External name true)) pg)) = S (count pg)).
  { assert (L : (10 <=? S (count pg))%nat = false) by (apply Nat.leb_gt; lia).
    cbn [pageStep]. rewrite Hw. cbn -[Nat.leb]. rewrite Hi. cbn -[Nat.leb].
    unfold intervalCallback. cbn -[Nat.leb].
    rewrite L. cbn. auto 10. }
  destruct E as (Ei & Es & El & Ew & Eo & Et & Ec).
  rewrite (runPage_stopped n _ Ei).
  unfold delegateOf. rewrite Es, El, Ew, Ei, Eo, Et, Ec, Hcount. cbn. auto 10.
Qed.

Lemma wallet_met_early_is_wrapped_witness :
  window_ethereum
    (runPage ([Tick; Tick] ++ Inject (External "MetaMask" true) :: Tick :: replicate 20 Tick)
       (setGlobalProvider (freshPage true)))
  = TheProxy.
Proof.
  exact (proj1 (wallet_met_early_is_wrapped true [Tick; Tick] "MetaMask" 20
                  eq_refl ltac:(cbn; lia))).
Defined.

(** ** The installer of the second build *)

Section SecondBuildProperties.
Variable isWaymont : Page → Reference → bool.

Lemma detected_is_object (pg : Page) (r : Reference) :
  refTruthy r && isMetaMask pg r = true → instanceofObject r = true.
Proof.
  destruct r as [v | | name b |]; try reflexivity.
  destruct v; cbn; try reflexivity; rewrite ?andb_false_r; intros H; discriminate H.
Qed.

Lemma runPage2_locked (steps : list PageStep) (pg : Page) :
  locked2 pg → runPage2 isWaymont steps pg = pg.
Proof.
  intros (Hi & _ & Hw & _). induction steps as [| st steps IH]; [reflexivity |].
  unfold runPage2 in *. cbn [foldl].
  assert (E : pageStep2 isWaymont st pg = pg) by (destruct st; cbn; rewrite ?Hi, ?Hw; reflexivity).
  rewrite E. exact IH.
Qed.

Lemma polling2_tick (pg : Page) :
  polling2 pg →
  (polling2 (pageStep2 isWaymont Tick pg) ∧
   count (pageStep2 isWaymont Tick pg) = S (count pg) ∧ S (count pg) < 10) ∨
  locked2 (pageStep2 isWaymont Tick pg).
Proof.
  intros (Hi & Hw & Hc & Ho & Ht & Hl & He).
  cbn [pageStep2]. rewrite Hi. unfold intervalCallback2.
  destruct (refTruthy (window_ethereum pg) && isMetaMask pg (window_ethereum pg)
            && negb (isWaymont pg (window_ethereum pg))) eqn:D.
  - right. apply andb_true_iff in D as [D _].
    pose proof (detected_is_object pg _ D) as Hobj.
    unfold locked2.
    destruct (10 <=? _)%nat; cbn; rewrite ?He;
      (split; [reflexivity |]); (split; [reflexivity |]); (split; [reflexivity |]);
      (split; [exact Ht |]); (split; [exact Hl |]); (split; [reflexivity |]);
      intros o [= <-]; exact Hobj.
  - destruct (10 <=? S (count pg))%nat eqn:L.
    + right. unfold locked2. cbn -[Nat.leb]. rewrite L. cbn. rewrite He, Ho.
      do 3 (split; [reflexivity |]). split; [exact Ht |]. split; [exact Hl |].
      split; [reflexivity |]. intros o H. discriminate H.
    + left. unfold polling2. cbn -[Nat.leb]. rewrite L. cbn.
      apply Nat.leb_gt in L.
      split; [| split; [reflexivity | exact L]].
      split; [exact Hi |]. split; [exact Hw |]. split; [exact L |]. auto.
Qed.

Lemma polling2_run (steps : list PageStep) (pg : Page) :
  polling2 pg →
  ((polling2 (runPage2 isWaymont steps pg) ∧
    count (runPage2 isWaymont steps pg) = count pg + countTicks steps) ∨
   locked2 (runPage2 isWaymont steps pg)) ∧
  ((10 ≤ count pg + countTicks steps)%nat → locked2 (runPage2 isWaymont steps pg)).
Proof.
  revert pg. induction steps as [| st steps IH]; intros pg Hp.
  - cbn. rewrite Nat.add_0_r. split; [left; auto |].
    intros H. destruct Hp as (_ & _ & Hc & _). lia.
  - change (runPage2 isWaymont (st :: steps) pg)
      with (runPage2 isWaymont steps (pageStep2 isWaymont st pg)).
    destruct st as [| r]; cbn [countTicks isTick].
    + destruct (polling2_tick pg Hp) as [(Hp' & Hc' & Hlt) | Hlk].
      * destruct (IH _ Hp') as [IH1 IH2]. rewrite Hc' in IH1, IH2.
        split; [| intros H; apply IH2; lia].
        destruct IH1 as [[K1 K2] | K]; [left | right; exact K].
        split; [exact K1 | lia].
      * rewrite (runPage2_locked steps _ Hlk). split; [right; exact Hlk | intros _; exact Hlk].
    + destruct Hp as (Hi & Hw & Hc & Ho & Ht & Hl & He).
      assert (Hp' : polling2 (pageStep2 isWaymont (Inject r) pg)).
      { cbn [pageStep2]. rewrite Hw. split; [exact Hi |]. split; [reflexivity |].
        split; [exact Hc |]. auto. }
      assert (Hc' : count (pageStep2 isWaymont (Inject r) pg) = count pg)
        by (cbn [pageStep2]; rewrite Hw; reflexivity).
      destruct (IH _ Hp') as [IH1 IH2]. rewrite Hc' in IH1, IH2.
      split; [exact IH1 | exact IH2].
Qed.

Lemma polling2_start (isMM : bool) : polling2 (setGlobalProvider2 (freshPage isMM)).
Proof.
  unfold polling2. cbn. split; [reflexivity |]. split; [reflexivity |].
  split; [lia |]. auto 10.
Qed.

(** X27: the second build always takes the slot: whatever other scripts
    put there and whenever, from the tenth poll on the slot holds the
    provider and cannot be written, and the poll is stopped.  The window
    event was dispatched once at installation, and once more exactly if
    another wallet was recorded. *)
Theorem second_build_takes_the_slot (isMM : bool) (steps : list PageStep) :
  (10 ≤ countTicks steps)%nat →
  let pg := runPage2 isWaymont steps (setGlobalProvider2 (freshPage isMM)) in
  window_ethereum pg = TheProvider ∧
  ethereum_writable pg = false ∧
  interval pg = false ∧
  windowEvents pg =
    "ethereum#initialized" ::
    match _originalMetaMask (provider pg) with
    | Some _ => ["ethereum#initialized"]
    | None => []
    end.
Proof.
  intros Hn pg. subst pg.
  destruct (proj2 (polling2_run steps _ (polling2_start isMM)))
    as (Hi & Hs & Hw & _ & _ & He & _); [cbn; lia |].
  auto.
Qed.

(** X28: in the second build a recorded wallet is out of reach of the
    deferral: whenever the installer has recorded another wallet, the slot
    holds the provider itself, so [_rpcRequest], told to defer an
    [eth_requestAccounts], retargets the proxy to that wallet and sends the
    call to the provider's own [request]. *)
Theorem second_build_defers_to_itself
    (isMM : bool) (steps : list PageStep) (other : Reference) :
  let pg := runPage2 isWaymont steps (setGlobalProvider2 (freshPage isMM)) in
  _originalMetaMask (provider pg) = Some other →
  window_ethereum pg = TheProvider ∧
  _rpcRequest requestAccounts false pg =
  (Returned (Ethereum_request TheProvider
               {| method := "eth_requestAccounts"; params := JUndefined |}),
   set_layer (Some (snd (setTarget other providerLayer))) pg).
Proof.
  intros pg Ho. subst pg.
  destruct (proj1 (polling2_run steps _ (polling2_start isMM))) as [[Hp _] | Hlk].
  { destruct Hp as (_ & _ & _ & Hnone & _). congruence. }
  destruct Hlk as (_ & Hs & _ & Ht & Hl & _ & Hobj).
  split; [exact Hs |].
  unfold _rpcRequest. rewrite Ho, Ht, Hl. cbn [requestAccounts methodIs rpc_method].
  cbn [String.eqb Ascii.eqb Bool.eqb andb negb].
  rewrite (setTarget_object other providerLayer (Hobj other Ho)).
  cbn [set_layer window_ethereum delegateOf]. rewrite Hs. reflexivity.
Qed.

End SecondBuildProperties.

Lemma second_build_takes_the_slot_witness :
  window_ethereum
    (runPage2 (λ _ _, false) (Inject metaMask :: replicate 10 Tick)
       (setGlobalProvider2 (freshPage true)))
  = TheProvider.
Proof.
  exact (proj1 (second_build_takes_the_slot (λ _ _, false) true
                  (Inject metaMask :: replicate 10 Tick) ltac:(cbn; lia))).
Defined.

Lemma second_build_defers_to_itself_witness :
  fst (_rpcRequest requestAccounts false
         (runPage2 (λ _ _, false) [Inject metaMask; Tick] (setGlobalProvider2 (freshPage true))))
  = Returned (Ethereum_request TheProvider
                {| method := "eth_requestAccounts"; params := JUndefined |}).
Proof.
  rewrite (proj2 (second_build_defers_to_itself (λ _ _, false) true
                    [Inject metaMask; Tick] metaMask eq_refl)).
  reflexivity.
Defined.

(** ** More on the facade *)

(** X29: [delete] through the facade never removes a property and never
    answers [false], whatever the object behind it; it answers [true] when
    the key is absent or names a configurable property of an extensible
    object, and throws a [TypeError] otherwise, that is, exactly when the key
    names a property that cannot be configured or the object cannot be
    extended.  The plain [delete] on the same object removes a configurable
    property. *)
Theorem facade_delete_never_removes (k : string) (o : JsObject) :
  snd (facadeDelete k o) = o ∧
  fst (facadeDelete k o) ≠ Normal (JBoolean false) ∧
  (fst (facadeDelete k o) = Normal (JBoolean true) ∨
   ∃ msg, fst (facadeDelete k o) = Abrupt (TypeError msg)) ∧
  (fst (facadeDelete k o) = Normal (JBoolean true) ↔
     ∀ d, own o !! k = Some d → prop_configurable d = true ∧ extensible o = true) ∧
  ((∃ msg, fst (facadeDelete k o) = Abrupt (TypeError msg)) ↔
     ∃ d, own o !! k = Some d ∧ (prop_configurable d = false ∨ extensible o = false)) ∧
  (∀ d, own o !! k = Some d → prop_configurable d = true →
        own (snd (ordinaryDelete k o)) !! k = None).
Proof.
  split; [apply facadeDelete_keeps_target |].
  assert (R : ∀ d, own o !! k = Some d → prop_configurable d = true →
                   own (snd (ordinaryDelete k o)) !! k = None).
  { intros d Hk Hc. unfold ordinaryDelete. rewrite Hk, Hc. apply lookup_delete_eq. }
  unfold facadeDelete, proxyDelete. cbn.
  destruct (own o !! k) as [d|] eqn:Hk.
  - destruct (prop_configurable d) eqn:Hc; cbn.
    + destruct (extensible o) eqn:He; cbn.
      * split; [discriminate |]. split; [left; reflexivity |].
        split; [split; [intros _ d' [= <-]; auto | reflexivity] |].
        split; [| exact R].
        split; [intros [msg H]; discriminate H |].
        intros (d' & [= <-] & [H | H]); congruence.
      * split; [discriminate |]. split; [right; eexists; reflexivity |].
        split; [split; [discriminate | intros H; destruct (H d eq_refl) as [_ H']; congruence] |].
        split; [| exact R].
        split; [intros _; exists d; auto | intros _; eexists; reflexivity].
    + split; [discriminate |]. split; [right; eexists; reflexivity |].
      split; [split; [discriminate | intros H; destruct (H d eq_refl) as [H' _]; congruence] |].
      split; [| exact R].
      split; [intros _; exists d; auto | intros _; eexists; reflexivity].
  - split; [discriminate |]. split; [left; reflexivity |].
    split; [split; [intros _ d H; discriminate H | reflexivity] |].
    split; [| exact R].
    split; [intros [msg H]; discriminate H | intros (d & H & _); discriminate H].
Qed.

(** A property made with [Object.defineProperty] and no [configurable]
    cannot be deleted: through the facade the attempt throws, where the plain
    [delete] answers [false]. *)
Example facade_delete_throws :
  let o := {| own := <["fixed" := {| prop_value := JBoolean true; prop_configurable := false |}]> ∅;
              extensible := true |} in
  fst (facadeDelete "fixed" o)
    = Abrupt (TypeError "trap returned truish for a non-configurable property") ∧
  fst (ordinaryDelete "fixed" o) = Normal (JBoolean false).
Proof. vm_compute. auto. Qed.
